(** * Desktop driver for the Arduino launcher panel: a shallow embedding

    The development follows [Driver/driver.py]: the text helpers the
    driver relies on, the two transports ([SerialTransport],
    [SimulationTransport]), the protocol handler ([ButtonDriver]) and the
    configuration normaliser ([normalize_program]).

    Conventions.
    - A Python [str] is a [string]; each [ascii] stands for one character,
      so that iteration is per character and [upper]/[strip] act as written
      below. The UTF-8 codec, the display of a list and the outcome of
      [subprocess.Popen] are Python's, not the driver's: they are taken as
      parameters.
    - A Python [int] is a [Z]; a delay in seconds is a [Q].
    - A method that mutates [self] or talks to the outside becomes a
      function from the state before to a [result] holding the state after.
      A [result] says how the call ended: it returned, it raised, it is
      blocked for ever on a lock, or the model ran out of fuel inside the
      reconnect loop.
    - Everything observable (lines written, ports opened, sleeps, processes
      spawned, threads started, log records) is appended to a trace.
    - [time.sleep] in the timer thread is taken as a parameter too: what
      it raises depends on the platform. The conversion of an [int] to a
      [float] in [duration / 1000.0] is modelled by its range; the quotient
      itself is kept exact. *)

From Stdlib Require Import ZArith QArith String Ascii List Bool Lia.
From Stdlib.Strings Require Import Byte.
From Stdlib Require Import DecimalString.
From stdpp Require Import gmap strings.
Import ListNotations.

Local Open Scope Z_scope.
Local Open Scope string_scope.
Local Open Scope list_scope.

(** ** Text helpers (Python built-ins used by the driver) *)

Module Text.

(** [str.upper] on one character: a-z are moved to A-Z and every other
    character is left as it is. Python also moves letters outside ASCII,
    some of them to several characters, but no string holding such a letter
    upper-cases to BTN, READY or DOWN, the only values the driver compares
    the result with. *)
Definition upper_ascii (c : ascii) : ascii :=
  let n := nat_of_ascii c in
  if ((97 <=? n)%nat && (n <=? 122)%nat)%bool then ascii_of_nat (n - 32) else c.

Fixpoint upper (s : string) : string :=
  match s with
  | EmptyString => EmptyString
  | String c r => String (upper_ascii c) (upper r)
  end.

(** [s.split(sep)] for a one-character separator: always at least one
    field, and n separators give n+1 fields. *)
Fixpoint split (sep : ascii) (s : string) : list string :=
  match s with
  | EmptyString => [EmptyString]
  | String c r =>
      if Ascii.eqb c sep then EmptyString :: split sep r
      else match split sep r with
           | [] => [String c EmptyString]
           | f :: fs => String c f :: fs
           end
  end.

(** [sep.join(parts)]. *)
Fixpoint join (sep : string) (parts : list string) : string :=
  match parts with
  | [] => EmptyString
  | [p] => p
  | p :: ps => p +:+ sep +:+ join sep ps
  end.

(** Characters removed by [str.strip()]: tab, line feed, vertical tab, form
    feed, carriage return, the four separators 28-31, space, and in the
    one-byte range NEL (133) and no-break space (160). *)
Definition is_space (c : ascii) : bool :=
  let n := nat_of_ascii c in
  ((9 <=? n)%nat && (n <=? 13)%nat) || ((28 <=? n)%nat && (n <=? 32)%nat)
  || (n =? 133)%nat || (n =? 160)%nat.

Fixpoint lstrip (s : string) : string :=
  match s with
  | EmptyString => EmptyString
  | String c r => if is_space c then lstrip r else s
  end.

Fixpoint rstrip (s : string) : string :=
  match s with
  | EmptyString => EmptyString
  | String c r =>
      match rstrip r with
      | EmptyString => if is_space c then EmptyString else String c EmptyString
      | r' => String c r'
      end
  end.

Definition strip (s : string) : string := rstrip (lstrip s).

(** A string that does not begin with a space. *)
Definition starts_clean (s : string) : bool :=
  match s with
  | EmptyString => true
  | String c _ => negb (is_space c)
  end.

(** [str(n)] for an [int]: decimal digits, with a leading minus sign for a
    negative number. *)
Definition str_of_int (n : Z) : string := NilZero.string_of_int (Z.to_int n).

(** An [int] can be converted to a [float] when it rounds to a finite
    double, that is when its absolute value is below 2^1024 - 2^970;
    beyond that the conversion raises [OverflowError]. *)
Definition float_limit : Z := (2 ^ 1024 - 2 ^ 970)%Z.

Definition fits_float (n : Z) : bool := (Z.abs n <? float_limit)%Z.

(** The one-character strings obtained by iterating over a [str]. *)
Fixpoint chars (s : string) : list string :=
  match s with
  | EmptyString => []
  | String c r => String c EmptyString :: chars r
  end.

(** [c in s] for a character. *)
Fixpoint contains (c : ascii) (s : string) : bool :=
  match s with
  | EmptyString => false
  | String d r => Ascii.eqb d c || contains c r
  end.

(** [str.lower] on one character: A-Z are moved to a-z and every other
    character is left as it is. In the one-byte range Python moves no
    other character to an ASCII letter, so the search for the ASCII chip
    names below is not affected. *)
Definition lower_ascii (c : ascii) : ascii :=
  let n := nat_of_ascii c in
  if ((65 <=? n)%nat && (n <=? 90)%nat)%bool then ascii_of_nat (n + 32) else c.

Fixpoint lower (s : string) : string :=
  match s with
  | EmptyString => EmptyString
  | String c r => String (lower_ascii c) (lower r)
  end.

(** [token in s] for strings: [token] starts at some position of [s]. *)
Fixpoint occurs (token s : string) : bool :=
  String.prefix token s ||
  match s with
  | EmptyString => false
  | String _ r => occurs token r
  end.

End Text.

Arguments Text.fits_float : simpl never.

(** ** Exceptions, log levels and the outcome of a call *)

(** The exception classes the driver can meet. All of them are subclasses
    of Python's [Exception]. *)
Inductive exn : Type :=
| SerialException
| FileNotFoundError
| OSError
| AttributeError
| ValueError
| TypeError
| OverflowError.

Inductive level : Type := DEBUG | INFO | WARNING | ERROR.

(** How a call on a state of type [S] ends. [Blocks] is a call that waits
    for ever for a lock nobody will release; [OutOfFuel] is the model
    giving up inside a loop, and says nothing about the program. *)
Inductive result (S A : Type) : Type :=
| Returns (a : A) (s : S)
| Raises (e : exn) (s : S)
| Blocks (s : S)
| OutOfFuel (s : S).

Arguments Returns {S A} a s.
Arguments Raises {S A} e s.
Arguments Blocks {S A} s.
Arguments OutOfFuel {S A} s.

Definition final {S A} (r : result S A) : S :=
  match r with
  | Returns _ s | Raises _ s | Blocks s | OutOfFuel s => s
  end.

(** The call came back to its caller, with a value or with an exception. *)
Definition comes_back {S A} (r : result S A) : bool :=
  match r with
  | Returns _ _ | Raises _ _ => true
  | Blocks _ | OutOfFuel _ => false
  end.

Definition M (S A : Type) : Type := S -> result S A.

Definition ret {S A} (a : A) : M S A := fun s => Returns a s.

Definition bind {S A B} (m : M S A) (k : A -> M S B) : M S B :=
  fun s =>
    match m s with
    | Returns a s' => k a s'
    | Raises e s' => Raises e s'
    | Blocks s' => Blocks s'
    | OutOfFuel s' => OutOfFuel s'
    end.

(** [try: body / except: handler], the handler choosing by exception
    class; [None] lets the exception through. *)
Definition try_except {S A} (body : M S A) (handler : exn -> option (M S A)) : M S A :=
  fun s =>
    match body s with
    | Raises e s' =>
        match handler e with
        | Some h => h s'
        | None => Raises e s'
        end
    | r => r
    end.

(** [try: body / finally: cleanup]: the cleanup runs when the body returns
    or raises, and an exception of the cleanup replaces the outcome of the
    body. *)
Definition finally {S A} (body : M S A) (cleanup : M S unit) : M S A :=
  fun s =>
    match body s with
    | Returns a s' =>
        match cleanup s' with
        | Returns _ s'' => Returns a s''
        | Raises e s'' => Raises e s''
        | Blocks s'' => Blocks s''
        | OutOfFuel s'' => OutOfFuel s''
        end
    | Raises e s' =>
        match cleanup s' with
        | Returns _ s'' => Raises e s''
        | Raises e' s'' => Raises e' s''
        | Blocks s'' => Blocks s''
        | OutOfFuel s'' => OutOfFuel s''
        end
    | Blocks s' => Blocks s'
    | OutOfFuel s' => OutOfFuel s'
    end.

Notation "x <- m ;; k" := (bind m (fun x => k))
  (at level 100, m at next level, right associativity).
Notation "m ;;; k" := (bind m (fun _ => k))
  (at level 100, right associativity).

(** The interface of [TransportBase]: what the protocol handler may call. *)
Class TransportBase (T : Type) : Type := {
  send_line : string -> M T unit;
  read_line : M T (option string);
  close : M T unit
}.

(** ** SerialTransport: the hardware channel *)

Module SerialTransport.

(** A [serial.Serial] handle: open from its construction until [close]. *)
Record Serial : Type := { is_open : bool }.

Inductive io_event : Type :=
| IoLog (lvl : level)
| IoOpen (port : string) (baud : Z) (ok : bool)
| IoSleep (seconds : Q)
| IoAcquire
| IoRelease
| IoWrite (payload : list Byte.byte) (ok : bool)
| IoReadline (data : option (list Byte.byte))
| IoClose.

(** The outside world of the transport: what the n-th attempt to open the
    port, the n-th write and the n-th readline do. [false] and [None] stand
    for a raised [serial.SerialException]. *)
Record device : Type := {
  open_result : nat -> bool;
  write_result : nat -> bool;
  readline_result : nat -> option (list Byte.byte)
}.

(** [str.encode("utf-8")] and [bytes.decode("utf-8", errors="ignore")]. *)
Record codec : Type := {
  encode : string -> list Byte.byte;
  decode_ignore : list Byte.byte -> string
}.

(** The fields of the object, the position reached in each script of the
    device, and the trace. [_lock] is [true] while the lock is held. *)
Record t : Type := {
  port_name : string;
  baud : Z;
  serial : option Serial;
  _lock : bool;
  opens : nat;
  writes : nat;
  reads : nat;
  trace : list io_event
}.

Definition set_serial (v : option Serial) (st : t) : t :=
  {| port_name := port_name st; baud := baud st; serial := v; _lock := _lock st;
     opens := opens st; writes := writes st; reads := reads st; trace := trace st |}.

Definition set_lock (v : bool) (st : t) : t :=
  {| port_name := port_name st; baud := baud st; serial := serial st; _lock := v;
     opens := opens st; writes := writes st; reads := reads st; trace := trace st |}.

Definition emit (e : io_event) (st : t) : t :=
  {| port_name := port_name st; baud := baud st; serial := serial st; _lock := _lock st;
     opens := opens st; writes := writes st; reads := reads st;
     trace := trace st ++ [e] |}.

Definition next_open (st : t) : t :=
  {| port_name := port_name st; baud := baud st; serial := serial st; _lock := _lock st;
     opens := S (opens st); writes := writes st; reads := reads st; trace := trace st |}.

Definition next_write (st : t) : t :=
  {| port_name := port_name st; baud := baud st; serial := serial st; _lock := _lock st;
     opens := opens st; writes := S (writes st); reads := reads st; trace := trace st |}.

Definition next_read (st : t) : t :=
  {| port_name := port_name st; baud := baud st; serial := serial st; _lock := _lock st;
     opens := opens st; writes := writes st; reads := S (reads st); trace := trace st |}.

Definition log (lvl : level) : M t unit := fun st => Returns tt (emit (IoLog lvl) st).
Definition sleep (seconds : Q) : M t unit := fun st => Returns tt (emit (IoSleep seconds) st).

(** [with self._lock: body]. [threading.Lock] is not re-entrant: acquiring it
    while it is held waits until somebody releases it. The lock is released
    when the body returns or raises. *)
Definition with_lock {A} (body : M t A) : M t A :=
  fun st =>
    if _lock st then Blocks st
    else
      match body (emit IoAcquire (set_lock true st)) with
      | Returns a s => Returns a (emit IoRelease (set_lock false s))
      | Raises e s => Raises e (emit IoRelease (set_lock false s))
      | Blocks s => Blocks s
      | OutOfFuel s => OutOfFuel s
      end.

Definition backoff : Q := 15 # 10.

(** The state in which [_connect_with_retry] calls [send_line] after the
    port opened. *)
Definition opened (st : t) : t :=
  emit (IoSleep 2)
    (set_serial (Some {| is_open := true |})
       (emit (IoOpen (port_name st) (baud st) true)
          (next_open (emit (IoLog INFO) st)))).

(** The state in which the loop goes round after the port failed to open. *)
Definition open_failed (st : t) : t :=
  emit (IoSleep backoff)
    (emit (IoLog WARNING)
       (emit (IoOpen (port_name st) (baud st) false)
          (next_open (emit (IoLog INFO) st)))).

(** The state in which [send_line] enters its [except] branch and starts
    to reconnect: lock held, the failed write on the trace, the warning
    logged, [self.serial] reset. *)
Definition write_failed (payload : list Byte.byte) (st : t) : t :=
  set_serial None
    (emit (IoLog WARNING)
       (emit (IoWrite payload false)
          (next_write (emit IoAcquire (set_lock true st))))).

(** The state in which [send_line] returns after its first write went
    through: lock taken, payload written, lock released. *)
Definition written (payload : list Byte.byte) (st : t) : t :=
  emit IoRelease
    (set_lock false
       (emit (IoWrite payload true)
          (next_write (emit IoAcquire (set_lock true st))))).

(** [k] failed rounds of the reconnect loop. *)
Fixpoint retried (k : nat) (st : t) : t :=
  match k with
  | O => st
  | S k' => retried k' (open_failed st)
  end.

(** The successful round: port opened, handshake written, success logged. *)
Definition handshaken (hello : list Byte.byte) (st : t) : t :=
  emit (IoLog INFO) (written hello (opened st)).

(** Projections of a trace: the sleeps, in seconds, and the payloads that
    reached the wire. *)
Definition slept (tr : list io_event) : list Q :=
  flat_map (fun e => match e with IoSleep d => [d] | _ => [] end) tr.

Definition wire (tr : list io_event) : list (list Byte.byte) :=
  flat_map (fun e => match e with IoWrite p true => [p] | _ => [] end) tr.

(** A transport whose handle is missing or closed. *)
Definition stale (st : t) : bool :=
  match serial st with
  | None => true
  | Some ser => negb (is_open ser)
  end.

(** What [send_line] puts on the wire for a line. *)
Definition payload_of (utf8 : codec) (line : string) : list Byte.byte :=
  encode utf8 (Text.strip line +:+ "
").

Section WithDevice.

Variable utf8 : codec.
Variable dev : device.

(** [serial.Serial(port, baud, timeout=0.2)]. *)
Definition open_port : M t Serial :=
  fun st =>
    let ok := open_result dev (opens st) in
    let st' := emit (IoOpen (port_name st) (baud st) ok) (next_open st) in
    if ok then Returns {| is_open := true |} st' else Raises SerialException st'.

(** [ser.write(payload)]; a closed handle raises without touching the wire. *)
Definition write (ser : Serial) (payload : list Byte.byte) : M t unit :=
  fun st =>
    if is_open ser then
      let ok := write_result dev (writes st) in
      let st' := emit (IoWrite payload ok) (next_write st) in
      if ok then Returns tt st' else Raises SerialException st'
    else Raises SerialException st.

(** [ser.readline()]. *)
Definition readline (ser : Serial) : M t (list Byte.byte) :=
  fun st =>
    if is_open ser then
      let r := readline_result dev (reads st) in
      let st' := emit (IoReadline r) (next_read st) in
      match r with
      | Some data => Returns data st'
      | None => Raises SerialException st'
      end
    else Raises SerialException st.

(** The loop of [_connect_with_retry], with the method it calls back
    ([self.send_line]) as a parameter; [n] bounds the iterations. *)
Fixpoint connect_loop (send : string -> M t unit) (n : nat) (st : t) : result t unit :=
  match serial st with
  | Some _ => Returns tt st
  | None =>
      match n with
      | O => OutOfFuel st
      | S n' =>
          let attempt : M t unit :=
            log INFO ;;;
            ser <- open_port ;;
            (fun s => Returns tt (set_serial (Some ser) s)) ;;;
            sleep 2 ;;;
            send "HELLO|PC" ;;;
            log INFO in
          let handler (e : exn) : option (M t unit) :=
            match e with
            | SerialException => Some (log WARNING ;;; sleep backoff)
            | _ => None
            end in
          (try_except attempt handler ;;; connect_loop send n') st
      end
  end.

(** [_require_serial], over the reconnect procedure it calls. Returning
    [self.serial] when it is [None] makes the caller's attribute access
    fail. *)
Definition require_serial_with (connect : M t unit) : M t Serial :=
  fun st =>
    let stale := match serial st with
                 | None => true
                 | Some ser => negb (is_open ser)
                 end in
    let get : M t Serial :=
      fun s => match serial s with
               | Some ser => Returns ser s
               | None => Raises AttributeError s
               end in
    if stale then ((fun s => Returns tt (set_serial None s)) ;;; connect ;;; get) st
    else get st.

Fixpoint send_line (fuel : nat) (line : string) (st : t) : result t unit :=
  match fuel with
  | O => OutOfFuel st
  | S f =>
      let connect : M t unit := connect_loop (send_line f) f in
      let payload := encode utf8 (Text.strip line +:+ "
") in
      let attempt : M t unit :=
        ser <- require_serial_with connect ;; write ser payload in
      let handler (e : exn) : option (M t unit) :=
        match e with
        | SerialException =>
            Some (log WARNING ;;;
                  (fun s => Returns tt (set_serial None s)) ;;;
                  connect ;;;
                  ser <- require_serial_with connect ;; write ser payload)
        | _ => None
        end in
      with_lock (try_except attempt handler) st
  end.

Definition _connect_with_retry (fuel : nat) : M t unit :=
  connect_loop (send_line fuel) fuel.

Definition _require_serial (fuel : nat) : M t Serial :=
  require_serial_with (_connect_with_retry fuel).

(** The [try] of the source holds the readline alone; what follows it
    (the emptiness test, the decoding) cannot raise, so it is written
    inside the protected part here. *)
Definition read_line (fuel : nat) : M t (option string) :=
  ser <- _require_serial fuel ;;
  try_except
    (data <- readline ser ;;
     match data with
     | [] => ret (Some "")
     | _ => ret (Some (Text.strip (decode_ignore utf8 data)))
     end)
    (fun e =>
       match e with
       | SerialException =>
           Some (log WARNING ;;;
                 (fun s => Returns tt (set_serial None s)) ;;;
                 ret (Some ""))
       | _ => None
       end).

Definition close : M t unit :=
  fun st =>
    match serial st with
    | Some ser =>
        if is_open ser
        then Returns tt (emit IoClose (set_serial (Some {| is_open := false |}) st))
        else Returns tt st
    | None => Returns tt st
    end.

(** The object before [__init__] connects it. *)
Definition fresh (port : string) (baud : Z) : t :=
  {| port_name := port; baud := baud; serial := None; _lock := false;
     opens := 0; writes := 0; reads := 0; trace := [] |}.

Definition __init__ (fuel : nat) (port : string) (baud : Z) : result t unit :=
  _connect_with_retry fuel (fresh port baud).

End WithDevice.

(** Plain one-byte text: the codec used in the examples. *)
Definition ascii_codec : codec :=
  {| encode := list_byte_of_string; decode_ignore := string_of_list_byte |}.

End SerialTransport.

#[export] Instance SerialTransport_TransportBase
  (utf8 : SerialTransport.codec) (dev : SerialTransport.device) (fuel : nat)
  : TransportBase SerialTransport.t :=
  {| send_line := SerialTransport.send_line utf8 dev fuel;
     read_line := SerialTransport.read_line utf8 dev fuel;
     close := SerialTransport.close |}.

(** ** SimulationTransport: the keyboard-driven mock *)

Module SimulationTransport.

(** [stdin] is what remains to be typed at the prompt; [logged] holds the
    lines passed to [logging.info]. *)
Record t : Type := {
  _lock : bool;
  stdin : list string;
  logged : list string
}.

Definition send_line (line : string) : M t unit :=
  fun st =>
    if _lock st then Blocks st
    else Returns tt {| _lock := false; stdin := stdin st;
                       logged := logged st ++ [line] |}.

(** [input(...)] raises [EOFError] at the end of the input, and [read_line]
    turns that into [None]. *)
Definition read_line : M t (option string) :=
  fun st =>
    match stdin st with
    | [] => Returns None st
    | l :: rest =>
        Returns (Some (Text.strip l))
                {| _lock := _lock st; stdin := rest; logged := logged st |}
    end.

(** Inherited from [TransportBase]: nothing to release. *)
Definition close : M t unit := ret tt.

Definition fresh (input : list string) : t :=
  {| _lock := false; stdin := input; logged := [] |}.

End SimulationTransport.

#[export] Instance SimulationTransport_TransportBase
  : TransportBase SimulationTransport.t :=
  {| send_line := SimulationTransport.send_line;
     read_line := SimulationTransport.read_line;
     close := SimulationTransport.close |}.

(** ** ButtonDriver: the protocol handler *)

Module ButtonDriver.

(** What the handler does to the outside, in order. [EvThreadStart] is the
    start of a daemon thread running [_delayed_led_off] with the two
    arguments recorded; [EvSendLine] is a call of the transport's
    [send_line]. *)
Inductive event : Type :=
| EvLog (lvl : level)
| EvPopen (command : list string)
| EvSendLine (line : string)
| EvSleep (seconds : Q)
| EvThreadStart (button_id : string) (delay : Q).

(** The fields of the driver that never change after [__init__]. *)
Record t : Type := {
  programs : gmap string (list string);
  success_flash_ms : Z;
  error_flash_ms : Z
}.

(** [ButtonDriver(programs, transport)] with the default durations. *)
Definition __init__ (programs : gmap string (list string)) : t :=
  {| programs := programs; success_flash_ms := 1200; error_flash_ms := 2000 |}.

(** The transport object the driver shares with its timer threads, and
    the events so far. *)
Record world (T : Type) : Type := {
  transport : T;
  events : list event
}.

Arguments transport {T} w.
Arguments events {T} w.

Section WithTransport.

Context {T : Type} `{TransportBase T}.

(** [subprocess.Popen(command)]: [None] when the process was started,
    otherwise the exception raised. *)
Variable Popen : list string -> option exn.

(** [time.sleep(delay)]: [None] when it sleeps, otherwise the exception it
    raises (a negative delay, a delay beyond what the clock can hold). *)
Variable time_sleep : Q -> option exn.

Definition emit (e : event) : M (world T) unit :=
  fun w => Returns tt {| transport := transport w; events := events w ++ [e] |}.

Definition log (lvl : level) : M (world T) unit := emit (EvLog lvl).

(** [self.transport.send_line(line)]: the call is recorded, then the
    transport decides how it ends. *)
Definition transport_send_line (line : string) : M (world T) unit :=
  fun w =>
    let evs := events w ++ [EvSendLine line] in
    match send_line line (transport w) with
    | Returns a tr => Returns a {| transport := tr; events := evs |}
    | Raises e tr => Raises e {| transport := tr; events := evs |}
    | Blocks tr => Blocks {| transport := tr; events := evs |}
    | OutOfFuel tr => OutOfFuel {| transport := tr; events := evs |}
    end.

Definition spawn (command : list string) : M (world T) unit :=
  fun w =>
    let w' := {| transport := transport w; events := events w ++ [EvPopen command] |} in
    match Popen command with
    | None => Returns tt w'
    | Some e => Raises e w'
    end.

(** [str(led_id)] for [led_id : Union[str, int]]. *)
Definition str_of_led_id (led_id : string + Z) : string :=
  match led_id with
  | inl s => s
  | inr n => Text.str_of_int n
  end.

(** The line built by [send_led]. *)
Definition led_command (led_id : string + Z) (mode : string) (argument : option Z) : string :=
  let led_str := str_of_led_id led_id in
  let command := "LED|" +:+ led_str +:+ "|" +:+ mode in
  match argument with
  | Some n => command +:+ "|" +:+ Text.str_of_int n
  | None => command
  end.

Definition send_led (led_id : string + Z) (mode : string) (argument : option Z)
  : M (world T) unit :=
  transport_send_line (led_command led_id mode argument).

(** The blink period chosen by [flash_led]. *)
Definition flash_period (success : bool) : Z := if success then 180 else 80.

Definition flash_duration (d : t) (success : bool) : Z :=
  if success then success_flash_ms d else error_flash_ms d.

(** Both durations of the driver can be converted to a [float]. *)
Definition float_durations (d : t) : bool :=
  Text.fits_float (success_flash_ms d) && Text.fits_float (error_flash_ms d).

(** [duration / 1000.0]: the duration is converted to a [float] first, and
    the quotient is recorded as the exact fraction. *)
Definition seconds (duration : Z) : M (world T) Q :=
  fun w =>
    if Text.fits_float duration then Returns (duration # 1000) w
    else Raises OverflowError w.

(** The arguments of [threading.Thread] are computed after [send_led]
    returned; the thread is started last. *)
Definition flash_led (d : t) (button_id : string) (success : bool) : M (world T) unit :=
  let period := flash_period success in
  let duration := flash_duration d success in
  send_led (inl button_id) "BLINK" (Some period) ;;;
  delay <- seconds duration ;;
  emit (EvThreadStart button_id delay).

(** The body of the timer thread: when [time.sleep] raises, nothing is
    sent. *)
Definition _delayed_led_off (button_id : string) (delay : Q) : M (world T) unit :=
  (fun w =>
     match time_sleep delay with
     | None => emit (EvSleep delay) w
     | Some e => Raises e w
     end) ;;;
  send_led (inl button_id) "OFF" None.

Definition launch_program (d : t) (button_id : string) : M (world T) unit :=
  match programs d !! button_id with
  | None =>
      log WARNING ;;;
      flash_led d button_id false
  | Some command =>
      log INFO ;;;
      try_except
        (spawn command ;;;
         flash_led d button_id true)
        (fun e =>
           match e with
           | FileNotFoundError => Some (log ERROR ;;; flash_led d button_id false)
           | _ => Some (log ERROR ;;; flash_led d button_id false)
           end)
  end.

Definition handle_line (d : t) (line : string) : M (world T) unit :=
  match line with
  | EmptyString => ret tt
  | _ =>
      let parts := Text.split "|" line in
      let topic := Text.upper (hd "" parts) in
      if (topic =? "BTN")%string && (3 <=? length parts)%nat then
        let button_id := nth 1 parts "" in
        let event := Text.upper (nth 2 parts "") in
        log DEBUG ;;;
        if (event =? "DOWN")%string then launch_program d button_id else ret tt
      else if (topic =? "READY")%string then log INFO
      else log DEBUG
  end.

(** [self.transport.read_line()] and [transport.close()], as the run loop
    calls them. *)
Definition transport_read_line : M (world T) (option string) :=
  fun w =>
    match read_line (transport w) with
    | Returns a tr => Returns a {| transport := tr; events := events w |}
    | Raises e tr => Raises e {| transport := tr; events := events w |}
    | Blocks tr => Blocks {| transport := tr; events := events w |}
    | OutOfFuel tr => OutOfFuel {| transport := tr; events := events w |}
    end.

Definition transport_close : M (world T) unit :=
  fun w =>
    match close (transport w) with
    | Returns a tr => Returns a {| transport := tr; events := events w |}
    | Raises e tr => Raises e {| transport := tr; events := events w |}
    | Blocks tr => Blocks {| transport := tr; events := events w |}
    | OutOfFuel tr => OutOfFuel {| transport := tr; events := events w |}
    end.

(** The [while True] loop of [main]: read a line, stop on [None], otherwise
    handle it and go round; [n] bounds the number of rounds. *)
Fixpoint run_loop (d : t) (n : nat) : M (world T) unit :=
  match n with
  | O => fun w => OutOfFuel w
  | S n' =>
      line <- transport_read_line ;;
      match line with
      | None => ret tt
      | Some l => handle_line d l ;;; run_loop d n'
      end
  end.

(** [main] once the registry and the transport exist: the loop, and the
    transport closed on the way out. (An operator's interrupt is not part
    of the model.) *)
Definition run (d : t) (n : nat) : M (world T) unit :=
  finally (run_loop d n) transport_close.

(** Handling a list of lines one after the other. *)
Fixpoint handle_lines (d : t) (lines : list string) : M (world T) unit :=
  match lines with
  | [] => ret tt
  | l :: rest => handle_line d l ;;; handle_lines d rest
  end.

End WithTransport.

(** Projections of a trace. *)
Definition spawned (evs : list event) : list (list string) :=
  flat_map (fun e => match e with EvPopen c => [c] | _ => [] end) evs.

Definition sent (evs : list event) : list string :=
  flat_map (fun e => match e with EvSendLine l => [l] | _ => [] end) evs.

Definition started (evs : list event) : list (string * Q) :=
  flat_map (fun e => match e with EvThreadStart b d => [(b, d)] | _ => [] end) evs.

End ButtonDriver.

(** ** normalize_program: one configuration entry to a token list *)

Module Config.

(** A value found in a program entry: a string, a sequence of strings, or
    a number (the one value here that is not a [Sequence]). *)
Inductive value : Type :=
| VStr (s : string)
| VSeq (l : list string)
| VInt (n : Z).

(** [ProgramEntry]: a plain value or a dict from keys to values. *)
Inductive ProgramEntry : Type :=
| EValue (v : value)
| EDict (d : gmap string value).

Inductive outcome (A : Type) : Type :=
| Ok (a : A)
| Raise (e : exn).

(** What [load_programs] finds at [config_path]: no file; something that
    [read_text] or [json.loads] cannot take, raising [e]; JSON that is not
    an object, on which [data.items()] raises [AttributeError]; or an
    object, given by its items in order. *)
Inductive config_file : Type :=
| Missing
| Unreadable (e : exn)
| NotAnObject
| Object (items : list (string * ProgramEntry)).

Arguments Ok {A} a.
Arguments Raise {A} e.

Section WithRepr.

(** [str(l)] for a list of strings: Python's bracketed, quoted display. *)
Variable repr_seq : list string -> string.

Definition str (v : value) : string :=
  match v with
  | VStr s => s
  | VSeq l => repr_seq l
  | VInt n => Text.str_of_int n
  end.

(** Python truthiness. *)
Definition truthy (v : value) : bool :=
  match v with
  | VStr s => negb (s =? "")%string
  | VSeq l => match l with [] => false | _ => true end
  | VInt n => negb (n =? 0)%Z
  end.

Definition normalize_program (entry : ProgramEntry) : outcome (list string) :=
  match entry with
  | EValue (VStr s) => Ok [s]
  | EValue (VSeq l) => Ok l
  | EDict d =>
      match d !! "command" with
      | None => Raise ValueError
      | Some command =>
          if negb (truthy command) then Raise ValueError
          else
            let args := default (VSeq []) (d !! "args") in
            let tokens := [str command] in
            match args with
            | VStr s => Ok (tokens ++ Text.chars s)
            | VSeq l => Ok (tokens ++ l)
            | VInt n => Ok (tokens ++ [str args])
            end
      end
  | EValue (VInt _) => Raise TypeError
  end.

(** The loop of [load_programs] over the items of the parsed JSON object,
    in order: each value is normalised and stored under its key; any
    exception of [normalize_program] is raised again as a [ValueError]. *)
Fixpoint load_entries (items : list (string * ProgramEntry))
    (programs : gmap string (list string)) : outcome (gmap string (list string)) :=
  match items with
  | [] => Ok programs
  | (key, value) :: rest =>
      match normalize_program value with
      | Ok tokens => load_entries rest (<[key := tokens]> programs)
      | Raise _ => Raise ValueError
      end
  end.

(** [load_programs] on what it finds at [config_path]. *)
Definition load_programs (config : config_file)
  : outcome (gmap string (list string)) :=
  match config with
  | Missing => Raise FileNotFoundError
  | Unreadable e => Raise e
  | NotAnObject => Raise AttributeError
  | Object data =>
      match load_entries data ∅ with
      | Ok programs =>
          if decide (programs = ∅) then Raise ValueError else Ok programs
      | Raise e => Raise e
      end
  end.

End WithRepr.

End Config.

(** ** auto_detect_port: choosing the serial port *)

Module Ports.

(** What [list_ports.comports()] tells about a port. *)
Record port : Type := {
  device : string;
  description : option string
}.

(** [auto_detect_port] returns a device name or raises [RuntimeError]. *)
Inductive outcome : Type :=
| Found (device : string)
| RuntimeError.

(** The test of the loop: the description, lower-cased, names a chip. *)
Definition looks_like_arduino (p : port) : bool :=
  let descriptor :=
    Text.lower (match description p with
                | Some s => s
                | None => ""
                end) in
  existsb (fun token => Text.occurs token descriptor) ["arduino"; "wchusb"; "ch340"].

(** [user_port] is the [--port] option; [comports] is [None] when pyserial
    is missing, otherwise the ports found. *)
Definition auto_detect_port (user_port : option string) (comports : option (list port))
  : outcome :=
  match user_port with
  | Some (String c r) => Found (String c r)
  | _ =>
      match comports with
      | None => RuntimeError
      | Some [] => RuntimeError
      | Some (first :: rest) =>
          match find looks_like_arduino (first :: rest) with
          | Some p => Found (device p)
          | None => Found (device first)
          end
      end
  end.

End Ports.

(** ** test_simulation: four button presses without hardware *)

Module TestSimulation.

(** The stand-in for [subprocess.Popen]: nothing is started, nothing is
    raised. (Its own log record is not put on the trace.) *)
Definition fake_popen : list string -> option exn := fun _ => None.

(** [f"BTN|{button}|DOWN"]. *)
Definition message (button : Z) : string :=
  "BTN|" +:+ Text.str_of_int button +:+ "|DOWN".

(** The body of the [for] loop, for the buttons still to press. *)
Fixpoint inject (driver : ButtonDriver.t) (buttons : list Z)
  : M (ButtonDriver.world SimulationTransport.t) unit :=
  match buttons with
  | [] => ret tt
  | button :: rest =>
      ButtonDriver.log INFO ;;;
      ButtonDriver.handle_line fake_popen driver (message button) ;;;
      ButtonDriver.emit (ButtonDriver.EvSleep (2 # 10)) ;;;
      inject driver rest
  end.

(** [main] after the registry was loaded: [range(1, 5)] is 1, 2, 3, 4. *)
Definition main (programs : gmap string (list string))
  : M (ButtonDriver.world SimulationTransport.t) unit :=
  inject (ButtonDriver.__init__ programs) [1; 2; 3; 4].

End TestSimulation.

(** ** Sample data used by the examples *)

Module Samples.

(** The registry of the scenario: button 1 starts an editor, button 2 a
    shell command. *)
Definition registry : gmap string (list string) :=
  {[ "1" := ["notepad.exe"]; "2" := ["bash"; "-c"; "echo hi"] ]}.

Definition driver : ButtonDriver.t := ButtonDriver.__init__ registry.

Definition sim_world : ButtonDriver.world SimulationTransport.t :=
  {| ButtonDriver.transport := SimulationTransport.fresh [];
     ButtonDriver.events := [] |}.

(** Every process starts. *)
Definition Popen_ok : list string -> option exn := fun _ => None.

(** No executable is found. *)
Definition Popen_missing : list string -> option exn := fun _ => Some FileNotFoundError.

(** A port that opens at once and never fails. *)
Definition healthy : SerialTransport.device :=
  {| SerialTransport.open_result := fun _ => true;
     SerialTransport.write_result := fun _ => true;
     SerialTransport.readline_result := fun _ => Some [] |}.

(** A port whose write number [1] (the first after the handshake) fails;
    every other write succeeds and the port reopens at the first attempt. *)
Definition one_write_failure : SerialTransport.device :=
  {| SerialTransport.open_result := fun _ => true;
     SerialTransport.write_result := fun n => negb (n =? 1)%nat;
     SerialTransport.readline_result := fun _ => Some [] |}.

(** A port whose first readline fails. *)
Definition one_read_failure : SerialTransport.device :=
  {| SerialTransport.open_result := fun _ => true;
     SerialTransport.write_result := fun _ => true;
     SerialTransport.readline_result := fun n => if (n =? 0)%nat then None else Some [] |}.

(** The transport as [__init__] leaves it on a port that opened at once:
    connected, lock free, one open and one write (the handshake) done. *)
Definition connected : SerialTransport.t :=
  final (SerialTransport.__init__ SerialTransport.ascii_codec healthy 2 "COM3" 115200).

(** A port that fails to open twice and then opens; writes go through. *)
Definition flaky_port : SerialTransport.device :=
  {| SerialTransport.open_result := fun n => (2 <=? n)%nat;
     SerialTransport.write_result := fun _ => true;
     SerialTransport.readline_result := fun _ => Some [] |}.

(** A port that sends the button frame of the scenario on every read. *)
Definition pressing : SerialTransport.device :=
  {| SerialTransport.open_result := fun _ => true;
     SerialTransport.write_result := fun _ => true;
     SerialTransport.readline_result :=
       fun _ => Some (list_byte_of_string " BTN|1|DOWN
") |}.

(** The transport after a failed read: as [connected], the handle gone. *)
Definition disconnected : SerialTransport.t :=
  SerialTransport.set_serial None connected.

(** A clock that sleeps for any delay that is not negative. *)
Definition steady_clock : Q -> option exn :=
  fun delay => if Qle_bool 0 delay then None else Some ValueError.

(** The hardware transport, as the handler sees it, on the port whose
    first write after the handshake fails. *)
Definition dropping_hardware : TransportBase SerialTransport.t :=
  SerialTransport_TransportBase SerialTransport.ascii_codec one_write_failure 3.

(** The handler's world on the connected transport. *)
Definition plugged_world : ButtonDriver.world SerialTransport.t :=
  {| ButtonDriver.transport := connected; ButtonDriver.events := [] |}.

(** A driver whose error flash is too long for a [float]. *)
Definition oversized_driver : ButtonDriver.t :=
  {| ButtonDriver.programs := registry;
     ButtonDriver.success_flash_ms := 1200;
     ButtonDriver.error_flash_ms := 2 ^ 1024 |}.

(** A transport of another kind, whose [send_line] always raises. *)
Definition broken_transport : TransportBase unit :=
  {| send_line := fun _ s => Raises OSError s;
     read_line := fun s => Returns None s;
     close := fun s => Returns tt s |}.

(** What is typed in the scenario, with some white space around. *)
Definition typed : list string :=
  ["BTN|1|DOWN"; "BTN|9|DOWN"; "GARBAGE"; "  btn|2|down "].

Definition typing_world : ButtonDriver.world SimulationTransport.t :=
  {| ButtonDriver.transport := SimulationTransport.fresh typed;
     ButtonDriver.events := [] |}.

(** The configuration of the scenario, as parsed. *)
Definition config : list (string * Config.ProgramEntry) :=
  [("1", Config.EValue (Config.VStr "notepad.exe"));
   ("2", Config.EValue (Config.VSeq ["bash"; "-c"; "echo hi"]))].

(** Two ports as a PC lists them. *)
Definition com1 : Ports.port :=
  {| Ports.device := "COM1"; Ports.description := Some "Communications Port (COM1)" |}.

Definition com5 : Ports.port :=
  {| Ports.device := "COM5"; Ports.description := Some "USB-SERIAL CH340 (COM5)" |}.

(** What [handle_line] does for a line on the quiet simulation transport:
    the events it emits there. *)
Definition reaction (Popen : list string -> option exn) (d : ButtonDriver.t)
    (line : string) : list ButtonDriver.event :=
  ButtonDriver.events (final (ButtonDriver.handle_line Popen d line sim_world)).

(** A simulation world after more events, the lines sent among them
    having been logged by the transport, and with [input] left to read. *)
Definition extended (w : ButtonDriver.world SimulationTransport.t)
    (input : list string) (evs : list ButtonDriver.event)
  : ButtonDriver.world SimulationTransport.t :=
  {| ButtonDriver.transport :=
       {| SimulationTransport._lock := false;
          SimulationTransport.stdin := input;
          SimulationTransport.logged :=
            SimulationTransport.logged (ButtonDriver.transport w) ++ ButtonDriver.sent evs |};
     ButtonDriver.events := ButtonDriver.events w ++ evs |}.

End Samples.

(** * Properties *)

(** ** Text helpers *)

Section TextFacts.

Import Text.

Lemma split_nonempty (sep : ascii) (s : string) : split sep s <> [].
Proof.
  destruct s as [|c r]; simpl; [discriminate|].
  destruct (Ascii.eqb c sep); [discriminate|].
  destruct (split sep r); discriminate.
Qed.

(** A separator always starts a new field. *)
Lemma split_app (sep : ascii) (a b : string) :
  split sep (a +:+ String sep b) = split sep a ++ split sep b.
Proof.
  induction a as [|c a IH]; simpl.
  - now rewrite Ascii.eqb_refl.
  - destruct (Ascii.eqb c sep); rewrite IH; [reflexivity|].
    destruct (split sep a) eqn:E; [now apply split_nonempty in E|reflexivity].
Qed.

Lemma split_no_sep (sep : ascii) (s : string) :
  contains sep s = false -> split sep s = [s].
Proof.
  induction s as [|c r IH]; simpl; [reflexivity|].
  intros [Hc Hr]%orb_false_iff. rewrite Hc, (IH Hr). reflexivity.
Qed.

Lemma upper_ascii_pipe (c : ascii) :
  Ascii.eqb (upper_ascii c) "|" = Ascii.eqb c "|".
Proof. destruct c as [[] [] [] [] [] [] [] []]; reflexivity. Qed.

Lemma contains_pipe_upper (s : string) :
  contains "|" (upper s) = contains "|" s.
Proof.
  induction s as [|c r IH]; simpl; [reflexivity|].
  now rewrite upper_ascii_pipe, IH.
Qed.

(** A field that reads as a keyword once upper-cased holds no separator. *)
Lemma keyword_no_pipe (s k : string) :
  upper s = k -> contains "|" k = false -> contains "|" s = false.
Proof. intros <-. now rewrite contains_pipe_upper. Qed.

Lemma digits_no_pipe (d : Decimal.uint) :
  contains "|" (NilEmpty.string_of_uint d) = false.
Proof. induction d; simpl; auto. Qed.

Lemma str_of_int_no_pipe (n : Z) : contains "|" (str_of_int n) = false.
Proof.
  unfold str_of_int, NilZero.string_of_int, NilZero.string_of_uint.
  destruct (Z.to_int n) as [d|d]; destruct d; simpl; auto using digits_no_pipe.
Qed.

(** The three fields of a button frame. *)
Lemma split_frame (t i a : string) :
  contains "|" t = false -> contains "|" i = false -> contains "|" a = false ->
  split "|" (t +:+ "|" +:+ i +:+ "|" +:+ a) = [t; i; a].
Proof.
  intros Ht Hi Ha.
  change (t +:+ "|" +:+ i +:+ "|" +:+ a)
    with (t +:+ String "|" (i +:+ String "|" a)).
  now rewrite !split_app, (split_no_sep _ _ Ht), (split_no_sep _ _ Hi),
    (split_no_sep _ _ Ha).
Qed.

End TextFacts.

Example upper_btn : Text.upper "bTn" = "BTN".
Proof. reflexivity. Qed.

Example split_btn : Text.split "|" "BTN|1|DOWN" = ["BTN"; "1"; "DOWN"].
Proof. reflexivity. Qed.

Example split_empty_fields : Text.split "|" "|a|" = [""; "a"; ""].
Proof. reflexivity. Qed.

Example split_empty : Text.split "|" "" = [""].
Proof. reflexivity. Qed.

Example strip_line : Text.strip "  LED|3|OFF
" = "LED|3|OFF".
Proof. reflexivity. Qed.

Example str_of_int_examples :
  Text.str_of_int 180 = "180" /\ Text.str_of_int 0 = "0" /\ Text.str_of_int (-5) = "-5".
Proof. repeat split; reflexivity. Qed.

(** ** The protocol handler *)

Section ButtonDriverFacts.

Import Text ButtonDriver.

Context {T : Type} `{TransportBase T}.
Variable Popen : list string -> option exn.
Variable time_sleep : Q -> option exn.

Lemma sent_app (l1 l2 : list event) : sent (l1 ++ l2) = sent l1 ++ sent l2.
Proof. apply flat_map_app. Qed.

Lemma transport_send_line_events (line : string) (w : world T) :
  events (final (transport_send_line line w)) = events w ++ [EvSendLine line].
Proof.
  unfold transport_send_line. now destruct (send_line line (transport w)).
Qed.

(** When the transport takes the line and the duration can be converted
    to a [float], [flash_led] sends the BLINK command and starts the timer
    thread. *)
Lemma flash_led_returns (d : t) (button_id : string) (success : bool)
    (w : world T) (tr' : T) :
  fits_float (flash_duration d success) = true ->
  send_line (led_command (inl button_id) "BLINK" (Some (flash_period success)))
    (transport w) = Returns tt tr' ->
  flash_led d button_id success w =
  Returns tt
    {| transport := tr';
       events := events w ++
         [EvSendLine (led_command (inl button_id) "BLINK" (Some (flash_period success)));
          EvThreadStart button_id (flash_duration d success # 1000)] |}.
Proof.
  intros Hfits Hsend.
  unfold flash_led, send_led, bind, transport_send_line, emit, seconds.
  rewrite Hsend, Hfits. cbn [transport events]. now rewrite <- app_assoc.
Qed.

(** When the duration is beyond the range of a [float], the BLINK command
    is sent, then the division raises and no timer thread is started. *)
Lemma flash_led_overflow (d : t) (button_id : string) (success : bool)
    (w : world T) (tr' : T) :
  fits_float (flash_duration d success) = false ->
  send_line (led_command (inl button_id) "BLINK" (Some (flash_period success)))
    (transport w) = Returns tt tr' ->
  flash_led d button_id success w =
  Raises OverflowError
    {| transport := tr';
       events := events w ++
         [EvSendLine (led_command (inl button_id) "BLINK" (Some (flash_period success)))] |}.
Proof.
  intros Hfits Hsend.
  unfold flash_led, send_led, bind, transport_send_line, emit, seconds.
  now rewrite Hsend, Hfits.
Qed.

(** Whatever the transport does with it and whatever the duration,
    [flash_led] hands the transport exactly one line: the BLINK command
    with the period of the outcome. *)
Lemma flash_led_sent (d : t) (button_id : string) (success : bool) (w : world T) :
  sent (events (final (flash_led d button_id success w))) =
  sent (events w) ++ [led_command (inl button_id) "BLINK" (Some (flash_period success))].
Proof.
  unfold flash_led, send_led, bind, transport_send_line, emit, seconds.
  destruct (send_line _ (transport w));
    destruct (fits_float (flash_duration d success));
    cbn [final transport events]; rewrite ?sent_app; cbn [sent flat_map app];
    now rewrite ?app_nil_r.
Qed.

(** When [time.sleep] takes the delay, the timer thread sleeps and then
    sends the OFF command; when it raises, the thread ends there and sends
    nothing. *)
Lemma delayed_led_off_events (button_id : string) (delay : Q) (w : world T) :
  time_sleep delay = None ->
  events (final (_delayed_led_off time_sleep button_id delay w)) =
  events w ++ [EvSleep delay; EvSendLine ("LED|" +:+ button_id +:+ "|OFF")].
Proof.
  intros Hsleep. unfold _delayed_led_off, send_led, bind, emit. rewrite Hsleep.
  rewrite transport_send_line_events. cbn [events]. now rewrite <- app_assoc.
Qed.

Lemma delayed_led_off_raises (button_id : string) (delay : Q) (w : world T) (e : exn) :
  time_sleep delay = Some e ->
  _delayed_led_off time_sleep button_id delay w = Raises e w.
Proof.
  intros Hsleep. unfold _delayed_led_off, bind. now rewrite Hsleep.
Qed.

Lemma handle_line_nonempty (d : t) (line : string) (w : world T) :
  line <> "" ->
  handle_line Popen d line w =
  (let parts := split "|" line in
   let topic := upper (hd "" parts) in
   if (topic =? "BTN")%string && (3 <=? length parts)%nat then
     let button_id := nth 1 parts "" in
     let event := upper (nth 2 parts "") in
     (log DEBUG ;;;
      if (event =? "DOWN")%string then launch_program Popen d button_id else ret tt) w
   else if (topic =? "READY")%string then log INFO w
   else log DEBUG w).
Proof.
  intros Hne. destruct line; [congruence|]. unfold handle_line.
  cbv zeta. destruct (_ && _); [reflexivity|]. now destruct (_ =? "READY")%string.
Qed.

(** A frame [BTN|<id>|DOWN] reaches [launch_program] with its id. *)
Lemma handle_line_down (d : t) (topic button_id action : string) (w : world T) :
  upper topic = "BTN" -> upper action = "DOWN" ->
  contains "|" button_id = false ->
  handle_line Popen d (topic +:+ "|" +:+ button_id +:+ "|" +:+ action) w =
  (log DEBUG ;;; launch_program Popen d button_id) w.
Proof.
  intros Ht Ha Hi.
  rewrite handle_line_nonempty.
  - rewrite split_frame; auto; try (eapply keyword_no_pipe; eauto; reflexivity).
    cbv zeta. simpl hd. simpl nth. rewrite Ht, Ha. reflexivity.
  - destruct topic; [discriminate Ht|discriminate].
Qed.

(** C1 (as amended). For every button, [flash_led] with [success=True]
    sends the BLINK command with period 180 and with [success=False] the
    BLINK command with period 80: the success period is the strictly
    larger one (the slower blink), the failure period the smaller. *)
Theorem flash_led_periods (d : t) (button_id : string) (w : world T) :
  sent (events (final (flash_led d button_id true w))) =
    sent (events w) ++ [led_command (inl button_id) "BLINK" (Some 180)]
  /\ sent (events (final (flash_led d button_id false w))) =
    sent (events w) ++ [led_command (inl button_id) "BLINK" (Some 80)]
  /\ flash_period false < flash_period true.
Proof.
  split; [|split].
  - apply (flash_led_sent d button_id true).
  - apply (flash_led_sent d button_id false).
  - reflexivity.
Qed.


(** C3 (as amended). For a frame [BTN|<id>|DOWN] (topic and action in any
    letter case) whose id is a key of the registry, a transport that takes
    the BLINK line and a flash duration that can be converted to a [float],
    [handle_line] makes exactly one spawn attempt, with the registry's
    tokens. When the process starts it sends one BLINK command with the
    success period and starts one timer thread for the success duration;
    when the spawn raises it logs the error, sends one BLINK command with
    the failure period and starts one timer thread for the error duration.
    The thread sends OFF for the id once it has slept, when [time.sleep]
    takes the delay. *)
Theorem handle_line_mapped_button (d : t) (topic button_id action : string)
    (command : list string) (w : world T) (tr' : T) :
  upper topic = "BTN" -> upper action = "DOWN" ->
  contains "|" button_id = false ->
  programs d !! button_id = Some command ->
  let started_ok := match Popen command with None => true | Some _ => false end in
  let blink := led_command (inl button_id) "BLINK" (Some (flash_period started_ok)) in
  let delay := flash_duration d started_ok # 1000 in
  fits_float (flash_duration d started_ok) = true ->
  send_line blink (transport w) = Returns tt tr' ->
  handle_line Popen d (topic +:+ "|" +:+ button_id +:+ "|" +:+ action) w =
    Returns tt
      {| transport := tr';
         events := events w ++
           [EvLog DEBUG; EvLog INFO; EvPopen command] ++
           (if started_ok then [] else [EvLog ERROR]) ++
           [EvSendLine blink; EvThreadStart button_id delay] |}
  /\ (time_sleep delay = None ->
      forall w2 : world T,
        events (final (_delayed_led_off time_sleep button_id delay w2)) =
        events w2 ++ [EvSleep delay; EvSendLine ("LED|" +:+ button_id +:+ "|OFF")]).
Proof.
  intros Ht Ha Hi Hcmd started_ok blink delay Hfits Hsend.
  split; [|intros Hsleep w2; now apply delayed_led_off_events].
  rewrite (handle_line_down d topic button_id action w Ht Ha Hi).
  unfold launch_program, bind, log, emit, try_except, spawn. cbn [transport events].
  rewrite Hcmd. subst started_ok blink delay.
  destruct (Popen command) as [e|]; cbn [transport events].
  - assert (Hfail : forall w0 : world T,
              transport w0 = transport w ->
              flash_led d button_id false w0 =
              Returns tt {| transport := tr';
                            events := events w0 ++
                              [EvSendLine (led_command (inl button_id) "BLINK" (Some (flash_period false)));
                               EvThreadStart button_id (flash_duration d false # 1000)] |}).
    { intros w0 Hw0. apply flash_led_returns; [exact Hfits|now rewrite Hw0]. }
    destruct e; cbn [transport events]; rewrite Hfail by reflexivity;
      cbn [transport events]; now rewrite <- !app_assoc.
  - rewrite (flash_led_returns d button_id true _ tr') by assumption.
    cbn [transport events]. now rewrite <- !app_assoc.
Qed.

(** C4 (as amended). For a frame [BTN|<id>|DOWN] whose id is not a key of
    the registry, a transport that takes the BLINK line and an error
    duration that can be converted to a [float], [handle_line] returns
    normally having made no spawn attempt, sent one BLINK command with the
    failure period and started one timer thread for the error duration.
    The thread sends OFF for the id once it has slept, when [time.sleep]
    takes the delay. *)
Theorem handle_line_unmapped_button (d : t) (topic button_id action : string)
    (w : world T) (tr' : T) :
  upper topic = "BTN" -> upper action = "DOWN" ->
  contains "|" button_id = false ->
  programs d !! button_id = None ->
  let blink := led_command (inl button_id) "BLINK" (Some (flash_period false)) in
  let delay := error_flash_ms d # 1000 in
  fits_float (error_flash_ms d) = true ->
  send_line blink (transport w) = Returns tt tr' ->
  handle_line Popen d (topic +:+ "|" +:+ button_id +:+ "|" +:+ action) w =
    Returns tt
      {| transport := tr';
         events := events w ++
           [EvLog DEBUG; EvLog WARNING; EvSendLine blink;
            EvThreadStart button_id delay] |}
  /\ (time_sleep delay = None ->
      forall w2 : world T,
        events (final (_delayed_led_off time_sleep button_id delay w2)) =
        events w2 ++ [EvSleep delay; EvSendLine ("LED|" +:+ button_id +:+ "|OFF")]).
Proof.
  intros Ht Ha Hi Hcmd blink delay Hfits Hsend.
  split; [|intros Hsleep w2; now apply delayed_led_off_events].
  rewrite (handle_line_down d topic button_id action w Ht Ha Hi).
  unfold launch_program, bind, log, emit. cbn [transport events].
  rewrite Hcmd.
  rewrite (flash_led_returns d button_id false _ tr') by assumption.
  cbn [transport events]. now rewrite <- !app_assoc.
Qed.

(** C5. A non-empty line whose first field is, in upper case, neither BTN
    nor READY, or is BTN with fewer than three fields, makes [handle_line]
    return normally with a debug log record and nothing else: no spawn, no
    line sent, the transport untouched. *)
Theorem handle_line_ignores_unknown (d : t) (line : string) (w : world T) :
  line <> "" ->
  let parts := split "|" line in
  let topic := upper (hd "" parts) in
  (topic <> "BTN" /\ topic <> "READY") \/ (topic = "BTN" /\ (length parts < 3)%nat) ->
  handle_line Popen d line w =
  Returns tt {| transport := transport w; events := events w ++ [EvLog DEBUG] |}.
Proof.
  intros Hne parts topic Hcase.
  rewrite (handle_line_nonempty d line w Hne). cbv zeta.
  fold parts. fold topic.
  destruct Hcase as [[Hb Hr]|[Hb Hlen]].
  - apply String.eqb_neq in Hb, Hr. now rewrite Hb, Hr.
  - rewrite Hb. simpl (("BTN" =? "BTN")%string).
    apply Nat.leb_gt in Hlen. rewrite Hlen. reflexivity.
Qed.

End ButtonDriverFacts.

(** C1 (as stated) fails: the period sent on success is not smaller than
    the period sent on failure. Button 1: 180 against 80. *)
Lemma flash_led_success_period_not_smaller :
  ~ (forall (button_id : string) (ps pf : Z),
       ButtonDriver.sent (ButtonDriver.events (final
         (ButtonDriver.flash_led Samples.driver button_id true Samples.sim_world))) =
         [ButtonDriver.led_command (inl button_id) "BLINK" (Some ps)] ->
       ButtonDriver.sent (ButtonDriver.events (final
         (ButtonDriver.flash_led Samples.driver button_id false Samples.sim_world))) =
         [ButtonDriver.led_command (inl button_id) "BLINK" (Some pf)] ->
       ps < pf).
Proof.
  intros Hclaim.
  specialize (Hclaim "1" 180 80 eq_refl eq_refl). lia.
Qed.

(** C3 (as stated) fails: button 1 is mapped, its executable is missing,
    and the one BLINK command sent carries the failure period. *)
Lemma handle_line_mapped_spawn_failure :
  ~ (forall (Popen : list string -> option exn) (button_id : string)
            (command : list string),
       Samples.registry !! button_id = Some command ->
       let evs := ButtonDriver.events (final
         (ButtonDriver.handle_line Popen Samples.driver
            ("BTN|" +:+ button_id +:+ "|DOWN") Samples.sim_world)) in
       ButtonDriver.spawned evs = [command]
       /\ ButtonDriver.sent evs =
            [ButtonDriver.led_command (inl button_id) "BLINK" (Some 180)]
       /\ ButtonDriver.started evs = [(button_id, 1200 # 1000)]).
Proof.
  intros Hclaim.
  destruct (Hclaim Samples.Popen_missing "1" ["notepad.exe"] eq_refl)
    as (_ & Hsent & _).
  vm_compute in Hsent. discriminate Hsent.
Qed.

Lemma handle_line_mapped_button_witness :
  Text.upper "btn" = "BTN" /\ Text.upper "Down" = "DOWN"
  /\ Text.contains "|" "1" = false
  /\ ButtonDriver.programs Samples.driver !! "1" = Some ["notepad.exe"]
  /\ Text.fits_float (ButtonDriver.flash_duration Samples.driver true) = true
  /\ ButtonDriver.handle_line Samples.Popen_ok Samples.driver "btn|1|Down"
       Samples.sim_world =
     Returns tt
       {| ButtonDriver.transport :=
            {| SimulationTransport._lock := false;
               SimulationTransport.stdin := [];
               SimulationTransport.logged := ["LED|1|BLINK|180"] |};
          ButtonDriver.events :=
            [ButtonDriver.EvLog DEBUG; ButtonDriver.EvLog INFO;
             ButtonDriver.EvPopen ["notepad.exe"];
             ButtonDriver.EvSendLine "LED|1|BLINK|180";
             ButtonDriver.EvThreadStart "1" (1200 # 1000)] |}.
Proof.
  repeat (split; [reflexivity|]).
  apply (handle_line_mapped_button Samples.Popen_ok Samples.steady_clock Samples.driver
           "btn" "1" "Down" ["notepad.exe"] Samples.sim_world
           {| SimulationTransport._lock := false;
              SimulationTransport.stdin := [];
              SimulationTransport.logged := ["LED|1|BLINK|180"] |});
    reflexivity.
Defined.

(** C4 (as stated) fails: on the hardware transport, when the write of
    the BLINK for the unmapped button 9 fails, [send_line] never comes
    back, so that no timer thread is started for the OFF command. *)
Lemma handle_line_unmapped_transport_stuck :
  ~ (forall (T : Type) (transport_kind : TransportBase T)
            (w : ButtonDriver.world T) (button_id : string),
       ButtonDriver.programs Samples.driver !! button_id = None ->
       let r := ButtonDriver.handle_line (H := transport_kind) Samples.Popen_ok
                  Samples.driver ("BTN|" +:+ button_id +:+ "|DOWN") w in
       ButtonDriver.spawned (ButtonDriver.events (final r)) =
         ButtonDriver.spawned (ButtonDriver.events w)
       /\ ButtonDriver.sent (ButtonDriver.events (final r)) =
            ButtonDriver.sent (ButtonDriver.events w) ++
            [ButtonDriver.led_command (inl button_id) "BLINK" (Some 80)]
       /\ ButtonDriver.started (ButtonDriver.events (final r)) =
            ButtonDriver.started (ButtonDriver.events w) ++ [(button_id, 2000 # 1000)]
       /\ forall e w', r <> Raises e w').
Proof.
  intros Hclaim.
  destruct (Hclaim SerialTransport.t Samples.dropping_hardware Samples.plugged_world
              "9" eq_refl)
    as (_ & _ & Hstarted & _).
  vm_compute in Hstarted. discriminate Hstarted.
Qed.

(** An error duration beyond the range of a [float]: the BLINK is sent,
    [OverflowError] leaves [handle_line] and no timer thread is started. *)
Example handle_line_unmapped_overflow :
  ButtonDriver.handle_line Samples.Popen_ok Samples.oversized_driver "BTN|9|DOWN"
    Samples.sim_world =
  Raises OverflowError
    (Samples.extended Samples.sim_world []
       [ButtonDriver.EvLog DEBUG; ButtonDriver.EvLog WARNING;
        ButtonDriver.EvSendLine "LED|9|BLINK|80"]).
Proof. vm_compute. reflexivity. Qed.

(** A negative delay: the timer thread ends in [time.sleep] and the OFF
    command is never sent. *)
Example delayed_led_off_negative :
  ButtonDriver._delayed_led_off Samples.steady_clock "9" (-2000 # 1000) Samples.sim_world =
  Raises ValueError Samples.sim_world.
Proof. reflexivity. Qed.

(** The same failure with a transport that raises: the exception leaves
    [handle_line]. *)
Example handle_line_unmapped_transport_raises :
  ButtonDriver.handle_line (H := Samples.broken_transport) Samples.Popen_ok Samples.driver
    "BTN|9|DOWN" {| ButtonDriver.transport := tt; ButtonDriver.events := [] |} =
  Raises OSError
    {| ButtonDriver.transport := tt;
       ButtonDriver.events :=
         [ButtonDriver.EvLog DEBUG; ButtonDriver.EvLog WARNING;
          ButtonDriver.EvSendLine "LED|9|BLINK|80"] |}.
Proof. reflexivity. Qed.

Lemma handle_line_unmapped_button_witness :
  Text.upper "BTN" = "BTN" /\ Text.upper "DOWN" = "DOWN"
  /\ Text.contains "|" "9" = false
  /\ ButtonDriver.programs Samples.driver !! "9" = None
  /\ Text.fits_float (ButtonDriver.error_flash_ms Samples.driver) = true
  /\ ButtonDriver.handle_line Samples.Popen_ok Samples.driver "BTN|9|DOWN"
       Samples.sim_world =
     Returns tt
       {| ButtonDriver.transport :=
            {| SimulationTransport._lock := false;
               SimulationTransport.stdin := [];
               SimulationTransport.logged := ["LED|9|BLINK|80"] |};
          ButtonDriver.events :=
            [ButtonDriver.EvLog DEBUG; ButtonDriver.EvLog WARNING;
             ButtonDriver.EvSendLine "LED|9|BLINK|80";
             ButtonDriver.EvThreadStart "9" (2000 # 1000)] |}.
Proof.
  repeat (split; [reflexivity|]).
  apply (handle_line_unmapped_button Samples.Popen_ok Samples.steady_clock Samples.driver
           "BTN" "9" "DOWN" Samples.sim_world
           {| SimulationTransport._lock := false;
              SimulationTransport.stdin := [];
              SimulationTransport.logged := ["LED|9|BLINK|80"] |});
    reflexivity.
Defined.

Lemma handle_line_ignores_unknown_witness :
  "GARBAGE" <> ""
  /\ (Text.upper (hd "" (Text.split "|" "GARBAGE")) <> "BTN"
      /\ Text.upper (hd "" (Text.split "|" "GARBAGE")) <> "READY")
  /\ ButtonDriver.handle_line Samples.Popen_ok Samples.driver "GARBAGE"
       Samples.sim_world =
     Returns tt
       {| ButtonDriver.transport := SimulationTransport.fresh [];
          ButtonDriver.events := [ButtonDriver.EvLog DEBUG] |}.
Proof.
  split; [discriminate|]. split; [split; discriminate|].
  apply (handle_line_ignores_unknown Samples.Popen_ok Samples.driver "GARBAGE"
           Samples.sim_world); [discriminate|].
  left. split; discriminate.
Defined.

(** The other way into the ignored branch: a BTN frame cut short. *)
Example handle_line_short_btn :
  ButtonDriver.handle_line Samples.Popen_ok Samples.driver "BTN|1" Samples.sim_world =
  Returns tt
    {| ButtonDriver.transport := SimulationTransport.fresh [];
       ButtonDriver.events := [ButtonDriver.EvLog DEBUG] |}.
Proof. reflexivity. Qed.

(** ** The hardware transport *)

Section SerialTransportFacts.

Import SerialTransport.

Variable utf8 : codec.
Variable dev : device.

(** [send_line] called while the lock is held never gets past the
    [with] statement. *)
Lemma send_line_locked (f : nat) (line : string) (st : t) :
  _lock st = true -> send_line utf8 dev (S f) line st = Blocks st.
Proof. intros Hl. simpl. unfold with_lock. now rewrite Hl. Qed.

Lemma send_line_locked_never_comes_back (fuel : nat) (line : string) (st : t) :
  _lock st = true -> comes_back (send_line utf8 dev fuel line st) = false.
Proof.
  intros Hl. destruct fuel; [reflexivity|]. now rewrite send_line_locked.
Qed.

Lemma connect_loop_open_fails (send : string -> M t unit) (n : nat) (st : t) :
  serial st = None -> open_result dev (opens st) = false ->
  connect_loop dev send (S n) st = connect_loop dev send n (open_failed st).
Proof.
  intros Hs Ho. simpl. rewrite Hs.
  unfold bind, try_except, log, sleep, open_port. simpl. rewrite Ho. reflexivity.
Qed.

Lemma connect_loop_open_ok (send : string -> M t unit) (n : nat) (st : t) :
  serial st = None -> open_result dev (opens st) = true ->
  connect_loop dev send (S n) st =
  match send "HELLO|PC" (opened st) with
  | Returns _ s => connect_loop dev send n (emit (IoLog INFO) s)
  | Raises SerialException s =>
      connect_loop dev send n (emit (IoSleep backoff) (emit (IoLog WARNING) s))
  | Raises e s => Raises e s
  | Blocks s => Blocks s
  | OutOfFuel s => OutOfFuel s
  end.
Proof.
  intros Hs Ho. simpl. rewrite Hs.
  unfold bind, try_except, log, sleep, open_port. simpl. rewrite Ho. simpl.
  fold (opened st). destruct (send "HELLO|PC" (opened st)) as [[] s|e s|s|s];
    try reflexivity.
  destruct e; reflexivity.
Qed.

(** Entered with the lock held, the reconnect loop never comes back: it
    either keeps failing to open the port or stops at its own call of
    [send_line]. *)
Lemma connect_loop_locked_never_comes_back (f n : nat) (st : t) :
  _lock st = true -> serial st = None ->
  comes_back (connect_loop dev (send_line utf8 dev f) n st) = false.
Proof.
  revert st. induction n as [|n IH]; intros st Hl Hs.
  - simpl. now rewrite Hs.
  - destruct (open_result dev (opens st)) eqn:Ho.
    + rewrite connect_loop_open_ok by assumption.
      pose proof (send_line_locked_never_comes_back f "HELLO|PC" (opened st) Hl) as Hb.
      destruct (send_line utf8 dev f "HELLO|PC" (opened st)); try discriminate Hb;
        reflexivity.
    + rewrite connect_loop_open_fails by assumption. now apply IH.
Qed.

(** With the lock held and the port opening at attempt number [k] of this
    call, the loop stops for ever at the handshake. *)
Lemma connect_loop_locked_blocks (k : nat) : forall (f n : nat) (st : t),
  (k < n)%nat ->
  _lock st = true -> serial st = None ->
  (forall j, (j < k)%nat -> open_result dev (opens st + j) = false) ->
  open_result dev (opens st + k) = true ->
  exists st',
    connect_loop dev (send_line utf8 dev (S f)) n st = Blocks st'
    /\ _lock st' = true /\ opens st' = (opens st + k + 1)%nat
    /\ writes st' = writes st.
Proof.
  induction k as [|k IH]; intros f n st Hn Hl Hs Hfail Hok.
  - destruct n as [|n]; [lia|].
    rewrite Nat.add_0_r in Hok.
    rewrite connect_loop_open_ok by assumption.
    rewrite send_line_locked by exact Hl.
    exists (opened st). simpl. repeat split; [assumption|lia].
  - destruct n as [|n]; [lia|].
    rewrite connect_loop_open_fails;
      [|assumption|rewrite <- (Nat.add_0_r (opens st)); apply Hfail; lia].
    destruct (IH f n (open_failed st)) as (st' & Hrun & Hl' & Ho' & Hw');
      [lia|exact Hl|exact Hs| | |].
    + intros j Hj. simpl.
      replace (S (opens st + j)) with (opens st + S j)%nat by lia.
      apply Hfail. lia.
    + simpl. now replace (S (opens st + k)) with (opens st + S k)%nat by lia.
    + exists st'. simpl in Ho', Hw'. repeat split; try assumption. lia.
Qed.

(** After a failed first write, what [send_line] does is what the
    reconnect loop does, started with the lock held. *)
Lemma send_line_write_failure_step (f : nat) (line : string) (st : t) (ser : Serial) :
  _lock st = false -> serial st = Some ser -> is_open ser = true ->
  write_result dev (writes st) = false ->
  let payload := encode utf8 (Text.strip line +:+ "
") in
  let loop := connect_loop dev (send_line utf8 dev f) f (write_failed payload st) in
  comes_back loop = false ->
  send_line utf8 dev (S f) line st = loop.
Proof.
  intros Hl Hs Ho Hw payload loop Hloop. subst loop.
  simpl. unfold with_lock. rewrite Hl.
  unfold try_except, bind, require_serial_with, write, log. simpl.
  rewrite Hs, Ho. simpl. rewrite Ho, Hw. simpl.
  fold payload. fold (write_failed payload st).
  destruct (connect_loop dev (send_line utf8 dev f) f (write_failed payload st));
    try discriminate Hloop; reflexivity.
Qed.

(** Whatever the device does afterwards, a call of [send_line] whose first
    write fails comes back neither with a value nor with an exception. *)
Lemma send_line_write_failure_never_comes_back
    (fuel : nat) (line : string) (st : t) (ser : Serial) :
  _lock st = false -> serial st = Some ser -> is_open ser = true ->
  write_result dev (writes st) = false ->
  comes_back (send_line utf8 dev fuel line st) = false.
Proof.
  intros Hl Hs Ho Hw. destruct fuel as [|f]; [reflexivity|].
  assert (Hloop : comes_back
            (connect_loop dev (send_line utf8 dev f) f
               (write_failed (encode utf8 (Text.strip line +:+ "
")) st)) = false)
    by now apply connect_loop_locked_never_comes_back.
  now rewrite (send_line_write_failure_step f line st ser Hl Hs Ho Hw Hloop).
Qed.

(** C2 (what the code does). On a connected transport with the lock free,
    when the first write raises and the port reopens at attempt [k] of the
    reconnect loop, [send_line] does not retry the write and does not
    return: it stops for ever inside the reconnect procedure, at the
    handshake's attempt to take the lock the call itself holds. One write
    only (the failed one) was made. *)
Theorem send_line_write_failure_blocks
    (k fuel : nat) (line : string) (st : t) (ser : Serial) :
  (k + 2 <= fuel)%nat ->
  _lock st = false -> serial st = Some ser -> is_open ser = true ->
  write_result dev (writes st) = false ->
  (forall j, (j < k)%nat -> open_result dev (opens st + j) = false) ->
  open_result dev (opens st + k) = true ->
  exists st',
    send_line utf8 dev fuel line st = Blocks st'
    /\ _lock st' = true
    /\ opens st' = (opens st + k + 1)%nat
    /\ writes st' = S (writes st).
Proof.
  intros Hfuel Hl Hs Ho Hw Hfail Hok.
  destruct fuel as [|[|f]]; [lia|lia|].
  destruct (connect_loop_locked_blocks k f (S f)
              (write_failed (encode utf8 (Text.strip line +:+ "
")) st))
    as (st' & Hrun & Hl' & Ho' & Hw'); [lia|reflexivity|reflexivity| | |].
  - exact Hfail.
  - exact Hok.
  - exists st'. split; [|repeat split; assumption].
    rewrite (send_line_write_failure_step (S f) line st ser Hl Hs Ho Hw);
      [exact Hrun|now rewrite Hrun].
Qed.

(** The failing call itself: when the readline inside [read_line] raises,
    the call returns the empty string (not [None]) and leaves [self.serial]
    reset; after the failure it only logs a warning: no port is opened,
    nothing is written, the lock is not touched. *)
Lemma read_line_failure_call
    (fuel : nat) (st st1 st2 : t) (ser : Serial) :
  _require_serial utf8 dev fuel st = Returns ser st1 ->
  readline dev ser st1 = Raises SerialException st2 ->
  let st3 := set_serial None (emit (IoLog WARNING) st2) in
  read_line utf8 dev fuel st = Returns (Some "") st3
  /\ serial st3 = None
  /\ trace st3 = trace st2 ++ [IoLog WARNING]
  /\ opens st3 = opens st1 /\ writes st3 = writes st1 /\ _lock st3 = _lock st1.
Proof.
  intros Hreq Hread st3. split.
  - unfold read_line, bind, try_except. rewrite Hreq, Hread. reflexivity.
  - subst st3. simpl. unfold readline in Hread.
    destruct (is_open ser).
    + destruct (readline_result dev (reads st1)); inversion Hread; subst.
      simpl. repeat split.
    + inversion Hread; subst. repeat split.
Qed.

End SerialTransportFacts.

Lemma send_line_write_failure_blocks_witness :
  (0 + 2 <= 2)%nat
  /\ SerialTransport._lock Samples.connected = false
  /\ SerialTransport.serial Samples.connected = Some {| SerialTransport.is_open := true |}
  /\ SerialTransport.write_result Samples.one_write_failure
       (SerialTransport.writes Samples.connected) = false
  /\ SerialTransport.open_result Samples.one_write_failure
       (SerialTransport.opens Samples.connected + 0) = true
  /\ exists st',
       SerialTransport.send_line SerialTransport.ascii_codec Samples.one_write_failure
         2 "LED|1|OFF" Samples.connected = Blocks st'
       /\ SerialTransport._lock st' = true
       /\ SerialTransport.opens st' = (SerialTransport.opens Samples.connected + 0 + 1)%nat
       /\ SerialTransport.writes st' = S (SerialTransport.writes Samples.connected).
Proof.
  split; [apply le_n|]. repeat (split; [reflexivity|]).
  apply (send_line_write_failure_blocks SerialTransport.ascii_codec
           Samples.one_write_failure 0 2 "LED|1|OFF" Samples.connected
           {| SerialTransport.is_open := true |});
    try reflexivity.
  intros j Hj. exfalso. inversion Hj.
Defined.

(** The same call, run: the trace stops after the port was reopened, with
    the lock still held and the line never written again. *)
Example send_line_write_failure_run :
  SerialTransport.send_line SerialTransport.ascii_codec Samples.one_write_failure
    5 "LED|1|OFF" Samples.connected =
  Blocks
    {| SerialTransport.port_name := "COM3"; SerialTransport.baud := 115200;
       SerialTransport.serial := Some {| SerialTransport.is_open := true |};
       SerialTransport._lock := true;
       SerialTransport.opens := 2; SerialTransport.writes := 2;
       SerialTransport.reads := 0;
       SerialTransport.trace :=
         SerialTransport.trace Samples.connected ++
         [SerialTransport.IoAcquire;
          SerialTransport.IoWrite (list_byte_of_string "LED|1|OFF
") false;
          SerialTransport.IoLog WARNING;
          SerialTransport.IoLog INFO;
          SerialTransport.IoOpen "COM3" 115200 true;
          SerialTransport.IoSleep 2] |}.
Proof. reflexivity. Qed.

(** With the lock free the same write goes through: the handshake of
    [__init__] and an ordinary [send_line] on a healthy port. *)
Example send_line_healthy_run :
  SerialTransport.send_line SerialTransport.ascii_codec Samples.healthy
    1 "LED|1|OFF" Samples.connected =
  Returns tt
    (SerialTransport.emit SerialTransport.IoRelease
       (SerialTransport.set_lock false
          (SerialTransport.emit
             (SerialTransport.IoWrite (list_byte_of_string "LED|1|OFF
") true)
             (SerialTransport.next_write
                (SerialTransport.emit SerialTransport.IoAcquire
                   (SerialTransport.set_lock true Samples.connected)))))).
Proof. reflexivity. Qed.

(** After a failed read, the next [read_line] reconnects (one more open,
    one more handshake write) before it reads. *)
Example read_line_reconnects_after_failure :
  let r := (SerialTransport.read_line SerialTransport.ascii_codec
              Samples.one_read_failure 3 ;;;
            SerialTransport.read_line SerialTransport.ascii_codec
              Samples.one_read_failure 3) Samples.connected in
  exists st', r = Returns (Some "") st'
    /\ SerialTransport.serial st' = Some {| SerialTransport.is_open := true |}
    /\ SerialTransport.opens st' = 2%nat /\ SerialTransport.writes st' = 2%nat
    /\ SerialTransport.reads st' = 2%nat.
Proof.
  cbv zeta. eexists. split; [vm_compute; reflexivity|].
  vm_compute. repeat split.
Qed.

(** After a failed read, a [send_line] that comes first reopens the port
    and then stops at the handshake, as in
    [send_line_write_failure_blocks]. *)
Example send_line_blocks_after_read_failure :
  let r := (SerialTransport.read_line SerialTransport.ascii_codec
              Samples.one_read_failure 3 ;;;
            SerialTransport.send_line SerialTransport.ascii_codec
              Samples.one_read_failure 3 "LED|1|OFF") Samples.connected in
  exists st', r = Blocks st'
    /\ SerialTransport._lock st' = true
    /\ SerialTransport.opens st' = 2%nat /\ SerialTransport.writes st' = 1%nat.
Proof.
  cbv zeta. eexists. split; [vm_compute; reflexivity|].
  vm_compute. repeat split.
Qed.

(** ** The configuration normaliser *)

Section ConfigFacts.

Import Text Config.

Variable repr_seq : list string -> string.

(** Iterating over a string gives one token per character, each one
    character long, and together they spell the string. *)
Lemma chars_length (s : string) : length (chars s) = String.length s.
Proof. induction s as [|c r IH]; simpl; [reflexivity|now rewrite IH]. Qed.

Lemma chars_single (s : string) : Forall (fun tok => String.length tok = 1%nat) (chars s).
Proof. induction s as [|c r IH]; simpl; constructor; [reflexivity|exact IH]. Qed.

Lemma chars_concat (s : string) : String.concat "" (chars s) = s.
Proof.
  induction s as [|c r IH]; [reflexivity|].
  change (chars (String c r)) with (String c EmptyString :: chars r).
  destruct r as [|c' r']; [reflexivity|].
  change (chars (String c' r')) with (String c' EmptyString :: chars r') in *.
  simpl in *. now rewrite IH.
Qed.

(** C9. A string entry becomes the one-token list holding the string as
    it is: spaces inside it do not split it. *)
Theorem normalize_program_string (s : string) :
  normalize_program repr_seq (EValue (VStr s)) = Ok [s].
Proof. reflexivity. Qed.

(** C10 (as amended). A dict entry with a usable command (present and
    truthy) and a string under [args] becomes the command followed by one
    token per character of that string. *)
Theorem normalize_program_string_args
    (d : gmap string value) (command : value) (s : string) :
  d !! "command" = Some command -> truthy command = true ->
  d !! "args" = Some (VStr s) ->
  normalize_program repr_seq (EDict d) = Ok (str repr_seq command :: chars s)
  /\ length (chars s) = String.length s.
Proof.
  intros Hc Ht Ha. split; [|apply chars_length].
  unfold normalize_program. rewrite Hc, Ht, Ha. reflexivity.
Qed.

End ConfigFacts.

Example normalize_program_command_line :
  Config.normalize_program (fun _ => "") (Config.EValue (Config.VStr "notepad.exe -x")) =
  Config.Ok ["notepad.exe -x"].
Proof. reflexivity. Qed.

Example normalize_program_list :
  Config.normalize_program (fun _ => "")
    (Config.EValue (Config.VSeq ["bash"; "-c"; "echo hi"])) =
  Config.Ok ["bash"; "-c"; "echo hi"].
Proof. reflexivity. Qed.

Example normalize_program_dict_list_args :
  Config.normalize_program (fun _ => "")
    (Config.EDict {[ "command" := Config.VStr "bash";
                     "args" := Config.VSeq ["-c"; "echo hi"] ]}) =
  Config.Ok ["bash"; "-c"; "echo hi"].
Proof. vm_compute. reflexivity. Qed.

Example normalize_program_missing_command :
  Config.normalize_program (fun _ => "")
    (Config.EDict {[ "args" := Config.VSeq ["-c"] ]}) = Config.Raise ValueError.
Proof. vm_compute. reflexivity. Qed.

(** C10 (as stated) fails: a dict with a string under [args] and no
    command yields no token list at all; [ValueError] is raised. *)
Lemma normalize_program_string_args_no_command :
  ~ (forall (d : gmap string Config.value) (s : string),
       d !! "args" = Some (Config.VStr s) ->
       exists tokens front,
         Config.normalize_program (fun _ => "") (Config.EDict d) = Config.Ok tokens
         /\ tokens = front ++ Text.chars s).
Proof.
  intros Hclaim.
  destruct (Hclaim {[ "args" := Config.VStr "-c" ]} "-c") as (tokens & front & Hrun & _).
  - vm_compute. reflexivity.
  - vm_compute in Hrun. discriminate Hrun.
Qed.

Lemma normalize_program_string_args_witness :
  let d : gmap string Config.value :=
    {[ "command" := Config.VStr "bash"; "args" := Config.VStr "-c" ]} in
  d !! "command" = Some (Config.VStr "bash")
  /\ Config.truthy (Config.VStr "bash") = true
  /\ d !! "args" = Some (Config.VStr "-c")
  /\ Config.normalize_program (fun _ => "") (Config.EDict d) = Config.Ok ["bash"; "-"; "c"].
Proof.
  cbv zeta. repeat (split; [vm_compute; reflexivity|]).
  apply (normalize_program_string_args (fun _ => "")
           {[ "command" := Config.VStr "bash"; "args" := Config.VStr "-c" ]}
           (Config.VStr "bash") "-c");
    vm_compute; reflexivity.
Defined.

(** ** More on the text helpers *)

Section StripFacts.

Import Text.

Lemma rstrip_idempotent (s : string) : rstrip (rstrip s) = rstrip s.
Proof.
  induction s as [|c r IH]; [reflexivity|].
  simpl. destruct (rstrip r) as [|d r'] eqn:E.
  - destruct (is_space c) eqn:Hc; [reflexivity|]. simpl. now rewrite Hc.
  - change (rstrip (String c (String d r'))) with
      (match rstrip (String d r') with
       | EmptyString => if is_space c then EmptyString else String c EmptyString
       | r0 => String c r0
       end).
    now rewrite IH.
Qed.

Lemma lstrip_starts_clean (s : string) : starts_clean (lstrip s) = true.
Proof.
  induction s as [|c r IH]; [reflexivity|].
  simpl. destruct (is_space c) eqn:Hc; [exact IH|]. simpl. now rewrite Hc.
Qed.

Lemma lstrip_clean (s : string) : starts_clean s = true -> lstrip s = s.
Proof.
  destruct s as [|c r]; [reflexivity|]. simpl.
  intros Hc%negb_true_iff. now rewrite Hc.
Qed.

Lemma rstrip_starts_clean (s : string) :
  starts_clean s = true -> starts_clean (rstrip s) = true.
Proof.
  destruct s as [|c r]; [reflexivity|]. simpl. intros Hc.
  destruct (rstrip r); simpl; [|exact Hc].
  apply negb_true_iff in Hc. rewrite Hc. simpl. now rewrite Hc.
Qed.

Lemma strip_idempotent (s : string) : strip (strip s) = strip s.
Proof.
  unfold strip.
  rewrite (lstrip_clean (rstrip (lstrip s))).
  - apply rstrip_idempotent.
  - apply rstrip_starts_clean, lstrip_starts_clean.
Qed.

End StripFacts.

(** ** More on the hardware transport *)

Section SerialTransportMore.

Import SerialTransport.

Variable utf8 : codec.
Variable dev : device.

Lemma send_line_connected (f : nat) (line : string) (st : t) (ser : Serial) :
  _lock st = false -> serial st = Some ser -> is_open ser = true ->
  write_result dev (writes st) = true ->
  send_line utf8 dev (S f) line st = Returns tt (written (payload_of utf8 line) st).
Proof.
  intros Hl Hs Ho Hw. simpl. unfold with_lock. rewrite Hl.
  unfold try_except, bind, require_serial_with, write. simpl.
  rewrite Hs, Ho. simpl. rewrite Ho, Hw. reflexivity.
Qed.

(** Entered on a stale transport, [send_line] is the reconnect loop started
    with the lock held. *)
Lemma send_line_stale_step (f : nat) (line : string) (st : t) :
  _lock st = false -> stale st = true ->
  let loop := connect_loop dev (send_line utf8 dev f) f
                (set_serial None (emit IoAcquire (set_lock true st))) in
  comes_back loop = false ->
  send_line utf8 dev (S f) line st = loop.
Proof.
  intros Hl Hst loop Hloop. subst loop.
  simpl. unfold with_lock. rewrite Hl.
  unfold try_except, bind, require_serial_with. simpl.
  unfold stale in Hst. rewrite Hst. unfold bind. simpl.
  destruct (connect_loop dev (send_line utf8 dev f) f
              (set_serial None (emit IoAcquire (set_lock true st))));
    try discriminate Hloop; reflexivity.
Qed.

(** The only way [send_line] comes back: the lock was free, the handle
    open, and the first write went through. *)
Lemma send_line_outcome (fuel : nat) (line : string) (st : t) :
  comes_back (send_line utf8 dev fuel line st) = true ->
  _lock st = false /\ stale st = false
  /\ write_result dev (writes st) = true
  /\ send_line utf8 dev fuel line st = Returns tt (written (payload_of utf8 line) st).
Proof.
  intros Hback. destruct fuel as [|f]; [discriminate Hback|].
  destruct (_lock st) eqn:Hl.
  { rewrite send_line_locked in Hback by exact Hl. discriminate Hback. }
  destruct (stale st) eqn:Hst.
  { rewrite send_line_stale_step in Hback; try assumption.
    - rewrite connect_loop_locked_never_comes_back in Hback by reflexivity.
      discriminate Hback.
    - now apply connect_loop_locked_never_comes_back. }
  unfold stale in Hst. destruct (serial st) as [ser|] eqn:Hs; [|discriminate Hst].
  apply negb_false_iff in Hst.
  destruct (write_result dev (writes st)) eqn:Hw.
  - repeat split. now apply send_line_connected with ser.
  - rewrite (send_line_write_failure_never_comes_back utf8 dev (S f) line st ser)
      in Hback by assumption.
    discriminate Hback.
Qed.

Lemma send_line_no_raise (fuel : nat) (line : string) (st st' : t) (e : exn) :
  send_line utf8 dev fuel line st <> Raises e st'.
Proof.
  intros Hr.
  destruct (send_line_outcome fuel line st) as (_ & _ & _ & Hret).
  - now rewrite Hr.
  - rewrite Hr in Hret. discriminate Hret.
Qed.

Lemma connect_loop_connected (send : string -> M t unit) (n : nat) (st : t) :
  serial st <> None -> connect_loop dev send n st = Returns tt st.
Proof.
  intros Hs. destruct (serial st) eqn:E; [|congruence].
  destruct n; simpl; now rewrite E.
Qed.

Lemma retried_fields (k : nat) : forall st : t,
  serial (retried k st) = serial st /\ _lock (retried k st) = _lock st
  /\ opens (retried k st) = (opens st + k)%nat
  /\ writes (retried k st) = writes st /\ reads (retried k st) = reads st
  /\ slept (trace (retried k st)) = slept (trace st) ++ repeat backoff k
  /\ wire (trace (retried k st)) = wire (trace st).
Proof.
  induction k as [|k IH]; intros st; simpl.
  - rewrite Nat.add_0_r, app_nil_r. repeat split.
  - destruct (IH (open_failed st)) as (H1 & H2 & H3 & H4 & H5 & H6 & H7).
    rewrite H1, H2, H3, H4, H5, H6, H7. simpl.
    unfold slept, wire. rewrite !flat_map_app. simpl. rewrite !app_nil_r.
    repeat split; try lia.
    now rewrite <- !app_assoc.
Qed.

(** With the lock free, the port opening at attempt number [k] and the
    handshake going through, the reconnect loop returns connected. *)
Lemma connect_loop_connects (k : nat) : forall (f n : nat) (st : t),
  (k < n)%nat ->
  _lock st = false -> serial st = None ->
  (forall j, (j < k)%nat -> open_result dev (opens st + j) = false) ->
  open_result dev (opens st + k) = true ->
  write_result dev (writes st) = true ->
  connect_loop dev (send_line utf8 dev (S f)) n st =
  Returns tt (handshaken (payload_of utf8 "HELLO|PC") (retried k st)).
Proof.
  induction k as [|k IH]; intros f n st Hn Hl Hs Hfail Hok Hw.
  - destruct n as [|n]; [lia|]. rewrite Nat.add_0_r in Hok.
    rewrite connect_loop_open_ok by assumption.
    rewrite (send_line_connected f "HELLO|PC" (opened st) {| is_open := true |})
      by (try reflexivity; assumption).
    now apply connect_loop_connected.
  - destruct n as [|n]; [lia|].
    rewrite connect_loop_open_fails;
      [|assumption|rewrite <- (Nat.add_0_r (opens st)); apply Hfail; lia].
    apply IH; try assumption; try lia.
    + intros j Hj. simpl.
      replace (S (opens st + j)) with (opens st + S j)%nat by lia.
      apply Hfail. lia.
    + simpl. now replace (S (opens st + k)) with (opens st + S k)%nat by lia.
Qed.

Lemma connect_loop_returns_serial (send : string -> M t unit) (n : nat) :
  forall st st' : t,
  connect_loop dev send n st = Returns tt st' -> serial st' <> None.
Proof.
  induction n as [|n IH]; intros st st' Hrun.
  - simpl in Hrun. destruct (serial st) eqn:E; [|discriminate Hrun].
    inversion Hrun; subst. congruence.
  - destruct (serial st) eqn:E.
    + rewrite connect_loop_connected in Hrun by congruence.
      inversion Hrun; subst. congruence.
    + destruct (open_result dev (opens st)) eqn:Ho.
      * rewrite connect_loop_open_ok in Hrun by assumption.
        destruct (send "HELLO|PC" (opened st)) as [[] s|e s|s|s];
          try discriminate Hrun; [now apply IH in Hrun|].
        destruct e; try discriminate Hrun. now apply IH in Hrun.
      * rewrite connect_loop_open_fails in Hrun by assumption.
        now apply IH in Hrun.
Qed.

Lemma connect_loop_no_raise (f n : nat) : forall (st st' : t) (e : exn),
  connect_loop dev (send_line utf8 dev f) n st <> Raises e st'.
Proof.
  induction n as [|n IH]; intros st st' e Hrun.
  - simpl in Hrun. destruct (serial st); discriminate Hrun.
  - destruct (serial st) eqn:E.
    + rewrite connect_loop_connected in Hrun by congruence. discriminate Hrun.
    + destruct (open_result dev (opens st)) eqn:Ho.
      * rewrite connect_loop_open_ok in Hrun by assumption.
        destruct (send_line utf8 dev f "HELLO|PC" (opened st)) as [[] s|e0 s|s|s] eqn:Hsend;
          try discriminate Hrun; [now apply IH in Hrun|].
        now apply send_line_no_raise in Hsend.
      * rewrite connect_loop_open_fails in Hrun by assumption.
        now apply IH in Hrun.
Qed.

Lemma require_serial_connected (fuel : nat) (st : t) :
  stale st = false ->
  exists ser, serial st = Some ser /\ is_open ser = true
    /\ _require_serial utf8 dev fuel st = Returns ser st.
Proof.
  unfold stale. intros Hst. destruct (serial st) as [ser|] eqn:Hs; [|discriminate Hst].
  apply negb_false_iff in Hst. exists ser. repeat split; [assumption|].
  unfold _require_serial, require_serial_with. rewrite Hs, Hst. reflexivity.
Qed.

Lemma require_serial_no_raise (fuel : nat) (st st' : t) (e : exn) :
  _require_serial utf8 dev fuel st <> Raises e st'.
Proof.
  intros Hrun. destruct (stale st) eqn:Hst.
  - unfold _require_serial, require_serial_with in Hrun. unfold stale in Hst.
    rewrite Hst in Hrun. unfold bind, _connect_with_retry in Hrun. simpl in Hrun.
    destruct (connect_loop dev (send_line utf8 dev fuel) fuel (set_serial None st))
      as [[] s|e0 s|s|s] eqn:Hloop; try discriminate Hrun.
    + apply connect_loop_returns_serial in Hloop.
      destruct (serial s); [discriminate Hrun|congruence].
    + now apply connect_loop_no_raise in Hloop.
  - destruct (require_serial_connected fuel st Hst) as (ser & _ & _ & Hret).
    rewrite Hret in Hrun. discriminate Hrun.
Qed.

Lemma connect_loop_locked_blocks_lock (f n : nat) : forall st st' : t,
  _lock st = true -> serial st = None ->
  connect_loop dev (send_line utf8 dev f) n st = Blocks st' -> _lock st' = true.
Proof.
  induction n as [|n IH]; intros st st' Hl Hs Hrun.
  - simpl in Hrun. rewrite Hs in Hrun. discriminate Hrun.
  - destruct (open_result dev (opens st)) eqn:Ho.
    + rewrite connect_loop_open_ok in Hrun by assumption.
      destruct f as [|f]; [discriminate Hrun|].
      rewrite send_line_locked in Hrun by exact Hl.
      inversion Hrun; subst. exact Hl.
    + rewrite connect_loop_open_fails in Hrun by assumption.
      now apply IH in Hrun.
Qed.

Lemma wire_written (payload : list Byte.byte) (st : t) :
  wire (trace (written payload st)) = wire (trace st) ++ [payload].
Proof.
  simpl. unfold wire. rewrite !flat_map_app. simpl. now rewrite !app_nil_r.
Qed.

(** X1. When the port opens at attempt number [k] of the reconnect loop
    (the lock being free) and the handshake write goes through,
    [_connect_with_retry] returns with the transport connected: [k+1]
    opens, the same back-off of 1.5 s after each failed attempt and the
    2 s settle delay after the successful one, and exactly one line on the
    wire, the handshake. *)
Theorem connect_with_retry_connects (k fuel : nat) (st : t) :
  (k < fuel)%nat ->
  _lock st = false -> serial st = None ->
  (forall j, (j < k)%nat -> open_result dev (opens st + j) = false) ->
  open_result dev (opens st + k) = true ->
  write_result dev (writes st) = true ->
  exists st',
    _connect_with_retry utf8 dev fuel st = Returns tt st'
    /\ serial st' = Some {| is_open := true |} /\ _lock st' = false
    /\ opens st' = (opens st + k + 1)%nat
    /\ slept (trace st') = slept (trace st) ++ repeat backoff k ++ [2%Q]
    /\ wire (trace st') = wire (trace st) ++ [encode utf8 "HELLO|PC
"].
Proof.
  intros Hfuel Hl Hs Hfail Hok Hw.
  destruct fuel as [|f]; [lia|].
  exists (handshaken (payload_of utf8 "HELLO|PC") (retried k st)).
  split; [now apply connect_loop_connects|].
  destruct (retried_fields k st) as (H1 & H2 & H3 & H4 & H5 & H6 & H7).
  simpl. rewrite H3. repeat split; try lia.
  - unfold slept in *. rewrite !flat_map_app, H6. simpl.
    rewrite !app_nil_r. now rewrite <- app_assoc.
  - unfold wire in *. rewrite !flat_map_app, H7. simpl.
    now rewrite !app_nil_r.
Qed.

(** X2. On a connected transport with the lock free, when the write goes
    through, [send_line] returns having put on the wire exactly one
    payload, the stripped line and a line feed, and having released the
    lock; white space around the line makes no difference. *)
Theorem send_line_connected_writes (fuel : nat) (line : string) (st : t) :
  (1 <= fuel)%nat ->
  _lock st = false -> stale st = false ->
  write_result dev (writes st) = true ->
  exists st',
    send_line utf8 dev fuel line st = Returns tt st'
    /\ wire (trace st') = wire (trace st) ++ [encode utf8 (Text.strip line +:+ "
")]
    /\ _lock st' = false /\ serial st' = serial st /\ opens st' = opens st
    /\ send_line utf8 dev fuel (Text.strip line) st = Returns tt st'.
Proof.
  intros Hfuel Hl Hst Hw. destruct fuel as [|f]; [lia|].
  unfold stale in Hst. destruct (serial st) as [ser|] eqn:Hs; [|discriminate Hst].
  apply negb_false_iff in Hst.
  exists (written (payload_of utf8 line) st).
  split; [now apply send_line_connected with ser|].
  split; [apply wire_written|]. repeat split; try assumption.
  rewrite (send_line_connected f (Text.strip line) st ser) by assumption.
  unfold payload_of. now rewrite strip_idempotent.
Qed.

(** X3. [send_line] never raises. When it returns, it has written its
    payload once, opened no port and released the lock; when it is stuck,
    the lock is held. *)
Theorem send_line_returns_or_hangs (fuel : nat) (line : string) (st : t) :
  match send_line utf8 dev fuel line st with
  | Returns _ st' =>
      st' = written (payload_of utf8 line) st
      /\ wire (trace st') = wire (trace st) ++ [payload_of utf8 line]
      /\ _lock st' = false /\ opens st' = opens st
  | Raises _ _ => False
  | Blocks st' => _lock st' = true
  | OutOfFuel _ => True
  end.
Proof.
  destruct (send_line utf8 dev fuel line st) as [[] st'|e st'|st'|st'] eqn:Hrun.
  - destruct (send_line_outcome fuel line st) as (Hl & _ & _ & Hret);
      [now rewrite Hrun|].
    rewrite Hrun in Hret. inversion Hret; subst.
    split; [reflexivity|]. split; [apply wire_written|]. now split.
  - now apply send_line_no_raise in Hrun.
  - destruct fuel as [|f]; [discriminate Hrun|].
    destruct (_lock st) eqn:Hl.
    { rewrite send_line_locked in Hrun by exact Hl. now inversion Hrun; subst. }
    destruct (stale st) eqn:Hst.
    { rewrite send_line_stale_step in Hrun; try assumption.
      - now apply connect_loop_locked_blocks_lock in Hrun.
      - now apply connect_loop_locked_never_comes_back. }
    unfold stale in Hst. destruct (serial st) as [ser|] eqn:Hs; [|discriminate Hst].
    apply negb_false_iff in Hst.
    destruct (write_result dev (writes st)) eqn:Hw.
    + rewrite (send_line_connected f line st ser) in Hrun by assumption.
      discriminate Hrun.
    + rewrite (send_line_write_failure_step utf8 dev f line st ser) in Hrun;
        try assumption.
      * now apply connect_loop_locked_blocks_lock in Hrun.
      * now apply connect_loop_locked_never_comes_back.
  - exact I.
Qed.

(** X4. Called with the lock free on a transport whose handle is missing
    or closed (after a failed read, after [close]), [send_line] reopens the
    port and then waits for ever at the handshake for the lock it holds
    itself; nothing is written. *)
Theorem send_line_stale_blocks (k fuel : nat) (line : string) (st : t) :
  (k + 2 <= fuel)%nat ->
  _lock st = false -> stale st = true ->
  (forall j, (j < k)%nat -> open_result dev (opens st + j) = false) ->
  open_result dev (opens st + k) = true ->
  exists st',
    send_line utf8 dev fuel line st = Blocks st'
    /\ _lock st' = true
    /\ opens st' = (opens st + k + 1)%nat
    /\ writes st' = writes st.
Proof.
  intros Hfuel Hl Hst Hfail Hok.
  destruct fuel as [|[|f]]; [lia|lia|].
  destruct (connect_loop_locked_blocks utf8 dev k f (S f)
              (set_serial None (emit IoAcquire (set_lock true st))))
    as (st' & Hrun & Hl' & Ho' & Hw'); [lia|reflexivity|reflexivity| | |].
  - exact Hfail.
  - exact Hok.
  - exists st'. split; [|repeat split; assumption].
    rewrite (send_line_stale_step (S f) line st Hl Hst); [exact Hrun|now rewrite Hrun].
Qed.

(** X5. [read_line] never raises and never returns [None]: when it comes
    back it is with a text, and that text has no white space around it. *)
Theorem read_line_returns_stripped_text (fuel : nat) (st : t) :
  match read_line utf8 dev fuel st with
  | Returns v _ => exists text, v = Some text /\ Text.strip text = text
  | Raises _ _ => False
  | Blocks _ | OutOfFuel _ => True
  end.
Proof.
  unfold read_line, bind.
  destruct (_require_serial utf8 dev fuel st) as [ser s|e s|s|s] eqn:Hreq;
    try exact I; [|now apply require_serial_no_raise in Hreq].
  unfold try_except, bind, readline.
  destruct (is_open ser).
  - destruct (readline_result dev (reads s)) as [data|]; simpl.
    + destruct data; simpl.
      * now exists "".
      * eexists. split; [reflexivity|apply strip_idempotent].
    + now exists "".
  - simpl. now exists "".
Qed.

(** X6. On a connected transport, whoever holds the lock, [read_line]
    consumes one readline and returns its data decoded and stripped (the
    empty string for no data); it opens no port and writes nothing. *)
Theorem read_line_data (fuel : nat) (st : t) (data : list Byte.byte) :
  stale st = false ->
  readline_result dev (reads st) = Some data ->
  let text := match data with
              | [] => ""
              | _ => Text.strip (decode_ignore utf8 data)
              end in
  let st' := emit (IoReadline (Some data)) (next_read st) in
  read_line utf8 dev fuel st = Returns (Some text) st'
  /\ opens st' = opens st /\ writes st' = writes st /\ _lock st' = _lock st
  /\ serial st' = serial st.
Proof.
  intros Hst Hdata text st'.
  split; [|repeat split].
  destruct (require_serial_connected fuel st Hst) as (ser & Hs & Ho & Hreq).
  unfold read_line, bind. rewrite Hreq.
  unfold try_except, bind, readline. rewrite Ho, Hdata.
  subst text st'. now destruct data.
Qed.

(** X7. On a transport whose handle is missing or closed, with the lock
    free, [read_line] first reconnects (the port opening at attempt [k],
    then the handshake) and then reads as on the connected transport. *)
Theorem read_line_reconnects (k fuel : nat) (st : t) :
  (k < fuel)%nat ->
  _lock st = false -> stale st = true ->
  (forall j, (j < k)%nat -> open_result dev (opens st + j) = false) ->
  open_result dev (opens st + k) = true ->
  write_result dev (writes st) = true ->
  let st1 := handshaken (payload_of utf8 "HELLO|PC") (retried k (set_serial None st)) in
  read_line utf8 dev fuel st = read_line utf8 dev fuel st1
  /\ stale st1 = false
  /\ opens st1 = (opens st + k + 1)%nat /\ writes st1 = S (writes st).
Proof.
  intros Hfuel Hl Hst Hfail Hok Hw st1.
  destruct fuel as [|f]; [lia|].
  assert (Hloop : connect_loop dev (send_line utf8 dev (S f)) (S f) (set_serial None st)
                  = Returns tt st1)
    by (apply connect_loop_connects; simpl; (assumption || reflexivity)).
  destruct (retried_fields k (set_serial None st)) as (_ & _ & H3 & H4 & _).
  assert (Hst1 : stale st1 = false) by reflexivity.
  split; [|split; [exact Hst1|]].
  - destruct (require_serial_connected (S f) st1 Hst1) as (ser & Hs & Ho & Hreq).
    unfold read_line at 1 2. unfold bind. rewrite Hreq.
    unfold _require_serial, require_serial_with, _connect_with_retry.
    unfold stale in Hst. rewrite Hst. unfold bind. rewrite Hloop.
    rewrite Hs. reflexivity.
  - subst st1. simpl. simpl in H3, H4. rewrite H3, H4. split; [lia|reflexivity].
Qed.

(** X8. [close] never fails, leaves no open handle, and a second [close]
    changes nothing; on a transport that is not connected it does
    nothing at all. *)
Theorem close_idempotent (st : t) :
  exists st',
    close st = Returns tt st'
    /\ close st' = Returns tt st'
    /\ stale st' = true
    /\ (stale st = true -> st' = st).
Proof.
  unfold close, stale. destruct (serial st) as [[[]]|] eqn:Hs.
  - eexists. split; [reflexivity|]. simpl. repeat split. discriminate.
  - exists st. rewrite Hs. repeat split.
  - exists st. rewrite Hs. repeat split.
Qed.

(** C6 (what the code does). When the readline inside [read_line] raises,
    the call returns the empty string (not [None]), resets [self.serial]
    and does not reconnect: after the failure it only logs a warning. The
    reconnection is left to the next call. A [read_line] coming next
    reconnects (the port opening at attempt [k], then the handshake) and
    then reads as on the connected transport. A [send_line] coming next
    takes the lock, reopens the port and then waits for ever at the
    handshake for the lock it holds itself: on that path the reconnection
    is never completed and nothing is written. *)
Theorem read_line_failure_defers_reconnect
    (k fuel : nat) (line : string) (st st1 st2 : t) (ser : Serial) :
  _require_serial utf8 dev fuel st = Returns ser st1 ->
  readline dev ser st1 = Raises SerialException st2 ->
  _lock st1 = false ->
  (k + 2 <= fuel)%nat ->
  (forall j, (j < k)%nat -> open_result dev (opens st1 + j) = false) ->
  open_result dev (opens st1 + k) = true ->
  write_result dev (writes st1) = true ->
  let st3 := set_serial None (emit (IoLog WARNING) st2) in
  let st4 := handshaken (payload_of utf8 "HELLO|PC") (retried k st3) in
  (read_line utf8 dev fuel st = Returns (Some "") st3
   /\ serial st3 = None /\ trace st3 = trace st2 ++ [IoLog WARNING]
   /\ opens st3 = opens st1 /\ writes st3 = writes st1)
  /\ (read_line utf8 dev fuel st3 = read_line utf8 dev fuel st4
      /\ stale st4 = false
      /\ opens st4 = (opens st1 + k + 1)%nat /\ writes st4 = S (writes st1))
  /\ (exists st',
        send_line utf8 dev fuel line st3 = Blocks st'
        /\ _lock st' = true
        /\ opens st' = (opens st1 + k + 1)%nat
        /\ writes st' = writes st1).
Proof.
  intros Hreq Hread Hl Hfuel Hfail Hok Hw st3 st4.
  destruct (read_line_failure_call utf8 dev fuel st st1 st2 ser Hreq Hread)
    as (Hcall & Hs3 & Htr & Ho3 & Hw3 & Hl3).
  fold st3 in Hcall, Hs3, Htr, Ho3, Hw3, Hl3.
  assert (Hstale : stale st3 = true) by reflexivity.
  assert (Hlock : _lock st3 = false) by congruence.
  assert (Hfail3 : forall j, (j < k)%nat -> open_result dev (opens st3 + j) = false)
    by (intros j Hj; rewrite Ho3; now apply Hfail).
  assert (Hok3 : open_result dev (opens st3 + k) = true) by now rewrite Ho3.
  assert (Hw3' : write_result dev (writes st3) = true) by now rewrite Hw3.
  destruct fuel as [|[|f]]; [lia|lia|].
  split; [repeat split; assumption|]. split.
  - assert (Hloop : connect_loop dev (send_line utf8 dev (S (S f))) (S (S f)) st3
                    = Returns tt st4)
      by (apply connect_loop_connects; try assumption; lia).
    destruct (retried_fields k st3) as (_ & _ & H3 & H4 & _).
    assert (Hst4 : stale st4 = false) by reflexivity.
    split; [|split; [exact Hst4|]].
    + destruct (require_serial_connected (S (S f)) st4 Hst4) as (ser4 & Hs4 & Ho4 & Hreq4).
      unfold read_line at 1 2. unfold bind. rewrite Hreq4.
      unfold _require_serial, require_serial_with, _connect_with_retry.
      fold (stale st3). rewrite Hstale. unfold bind.
      change (set_serial None st3) with st3. rewrite Hloop, Hs4. reflexivity.
    + subst st4. cbn [handshaken written opened emit set_lock set_serial next_write
                      next_open opens writes].
      rewrite H3, H4, Ho3, Hw3. split; [lia|reflexivity].
  - destruct (connect_loop_locked_blocks utf8 dev k f (S f)
                (set_serial None (emit IoAcquire (set_lock true st3))))
      as (st' & Hrun & Hl' & Ho' & Hw''); [lia|reflexivity|reflexivity| | |].
    + exact Hfail3.
    + exact Hok3.
    + exists st'. split; [|repeat split; try assumption].
      * rewrite (send_line_stale_step (S f) line st3 Hlock Hstale);
          [exact Hrun|now rewrite Hrun].
      * rewrite Ho'. cbn [opens set_serial emit set_lock]. now rewrite Ho3.
      * rewrite Hw''. cbn [writes set_serial emit set_lock]. exact Hw3.
Qed.

End SerialTransportMore.

(** ** More on the protocol handler *)

Section ButtonDriverMore.

Import Text ButtonDriver.

Context {T : Type} `{TransportBase T}.
Variable Popen : list string -> option exn.

Lemma spawned_app (l1 l2 : list event) : spawned (l1 ++ l2) = spawned l1 ++ spawned l2.
Proof. apply flat_map_app. Qed.

Lemma flash_led_spawned (d : t) (button_id : string) (success : bool) (w : world T) :
  spawned (events (final (flash_led d button_id success w))) = spawned (events w).
Proof.
  unfold flash_led, send_led, bind, transport_send_line, emit, seconds.
  destruct (send_line _ (transport w));
    destruct (fits_float (flash_duration d success));
    cbn [final transport events]; rewrite ?spawned_app; cbn [spawned flat_map app];
    now rewrite ?app_nil_r.
Qed.

Lemma flash_led_raises (d : t) (button_id : string) (success : bool)
    (w : world T) (e : exn) (tr' : T) :
  send_line (led_command (inl button_id) "BLINK" (Some (flash_period success)))
    (transport w) = Raises e tr' ->
  flash_led d button_id success w =
  Raises e
    {| transport := tr';
       events := events w ++
         [EvSendLine (led_command (inl button_id) "BLINK" (Some (flash_period success)))] |}.
Proof.
  intros Hsend. unfold flash_led, send_led, bind, transport_send_line.
  now rewrite Hsend.
Qed.

Lemma float_durations_fit (d : t) (success : bool) :
  float_durations d = true -> fits_float (flash_duration d success) = true.
Proof.
  unfold float_durations, flash_duration.
  intros [Hs He]%andb_true_iff. now destruct success.
Qed.

(** When the transport never raises and the durations can be converted to
    a [float], neither [flash_led] raises, nor [launch_program], nor
    [handle_line]. *)
Lemma flash_led_no_raise (d : t) (button_id : string) (success : bool)
    (w w' : world T) (e : exn) :
  (forall line tr e' tr', send_line line tr <> Raises e' tr') ->
  float_durations d = true ->
  flash_led d button_id success w <> Raises e w'.
Proof.
  intros Hsafe Hfloat.
  unfold flash_led, send_led, bind, transport_send_line, emit, seconds.
  rewrite (float_durations_fit d success Hfloat).
  destruct (send_line _ (transport w)) eqn:Hsend; try discriminate.
  now apply Hsafe in Hsend.
Qed.

Lemma launch_program_no_raise (d : t) (button_id : string) (w w' : world T) (e : exn) :
  (forall line tr e' tr', send_line line tr <> Raises e' tr') ->
  float_durations d = true ->
  launch_program Popen d button_id w <> Raises e w'.
Proof.
  intros Hsafe Hfloat. unfold launch_program.
  destruct (programs d !! button_id) as [command|].
  - unfold bind, log, emit, try_except, spawn. cbn [transport events].
    destruct (Popen command) as [e0|]; cbn [transport events].
    + destruct e0; cbn [transport events]; now apply flash_led_no_raise.
    + match goal with
      | |- context [flash_led d button_id true ?w0] =>
          destruct (flash_led d button_id true w0) eqn:Hflash
      end; try discriminate.
      now apply flash_led_no_raise in Hflash.
  - unfold bind, log, emit. cbn [transport events]. now apply flash_led_no_raise.
Qed.

Lemma handle_line_no_raise (d : t) (line : string) (w w' : world T) (e : exn) :
  (forall line tr e' tr', send_line line tr <> Raises e' tr') ->
  float_durations d = true ->
  handle_line Popen d line w <> Raises e w'.
Proof.
  intros Hsafe Hfloat. destruct line as [|c r]; [discriminate|].
  rewrite handle_line_nonempty by discriminate. cbv zeta.
  destruct (_ && _).
  - unfold bind, log, emit. cbn [transport events].
    destruct (_ =? "DOWN")%string; [|discriminate].
    now apply launch_program_no_raise.
  - destruct (_ =? "READY")%string; discriminate.
Qed.

(** X9. A BTN frame with at least three fields whose action is not DOWN
    (UP, for instance) is logged at debug level and otherwise ignored: no
    spawn, no line sent, the transport untouched. *)
Theorem handle_line_other_action (d : t) (line : string) (w : world T) :
  let parts := split "|" line in
  upper (hd "" parts) = "BTN" -> (3 <= length parts)%nat ->
  upper (nth 2 parts "") <> "DOWN" ->
  handle_line Popen d line w =
  Returns tt {| transport := transport w; events := events w ++ [EvLog DEBUG] |}.
Proof.
  intros parts Ht Hlen Ha.
  rewrite handle_line_nonempty by (intros ->; discriminate Ht).
  cbv zeta. fold parts. rewrite Ht.
  apply Nat.leb_le in Hlen. rewrite Hlen.
  apply String.eqb_neq in Ha. rewrite Ha. reflexivity.
Qed.

(** X10. A frame whose first field reads READY in any letter case is
    logged at info level and changes nothing else, whatever follows. *)
Theorem handle_line_ready (d : t) (line : string) (w : world T) :
  upper (hd "" (split "|" line)) = "READY" ->
  handle_line Popen d line w =
  Returns tt {| transport := transport w; events := events w ++ [EvLog INFO] |}.
Proof.
  intros Ht.
  rewrite handle_line_nonempty by (intros ->; discriminate Ht).
  cbv zeta. rewrite Ht. reflexivity.
Qed.

(** X11. Fields after the third are ignored: a button frame followed by
    [|] and anything is handled exactly as the frame alone. *)
Theorem handle_line_trailing_fields
    (d : t) (topic button_id action rest : string) (w : world T) :
  upper topic = "BTN" ->
  contains "|" button_id = false -> contains "|" action = false ->
  handle_line Popen d
    (topic +:+ "|" +:+ button_id +:+ "|" +:+ action +:+ "|" +:+ rest) w =
  handle_line Popen d (topic +:+ "|" +:+ button_id +:+ "|" +:+ action) w.
Proof.
  intros Ht Hi Ha.
  assert (Hpt : contains "|" topic = false)
    by (eapply keyword_no_pipe; eauto; reflexivity).
  assert (Hne : forall tail, topic +:+ tail <> "")
    by (intros tail; destruct topic; [discriminate Ht|discriminate]).
  rewrite !handle_line_nonempty by apply Hne.
  rewrite (split_frame topic button_id action) by assumption.
  change (topic +:+ "|" +:+ button_id +:+ "|" +:+ action +:+ "|" +:+ rest)
    with (topic +:+ String "|" (button_id +:+ String "|" (action +:+ String "|" rest))).
  rewrite !split_app, (split_no_sep _ _ Hpt), (split_no_sep _ _ Hi),
    (split_no_sep _ _ Ha).
  cbv zeta. simpl hd. simpl nth. rewrite Ht. simpl.
  destruct (split "|" rest); reflexivity.
Qed.

(** X12. Whatever the transport and the spawn do, [launch_program] makes
    one spawn attempt, with the registry's tokens, for a mapped button, and
    none for an unmapped one. *)
Theorem launch_program_spawns_once (d : t) (button_id : string) (w : world T) :
  spawned (events (final (launch_program Popen d button_id w))) =
  spawned (events w) ++
  match programs d !! button_id with
  | Some command => [command]
  | None => []
  end.
Proof.
  unfold launch_program.
  destruct (programs d !! button_id) as [command|].
  - unfold bind, log, emit, try_except, spawn. simpl.
    destruct (Popen command) as [e0|]; simpl.
    + assert (Hflash : forall w0 : world T,
                spawned (events (final ((log ERROR ;;; flash_led d button_id false) w0))) =
                spawned (events w0)).
      { intros w0. unfold bind, log, emit. simpl.
        rewrite flash_led_spawned. simpl. rewrite spawned_app. simpl.
        now rewrite app_nil_r. }
      unfold bind, log, emit in Hflash. simpl in Hflash.
      destruct e0; simpl; rewrite flash_led_spawned; simpl;
        rewrite !spawned_app; simpl; now rewrite !app_nil_r.
    + match goal with
      | |- context [flash_led d button_id true ?w0] =>
          pose proof (flash_led_spawned d button_id true w0) as Hsp;
          destruct (flash_led d button_id true w0) as [[] w1|e1 w1|w1|w1]
      end; simpl in *.
      * rewrite Hsp, !spawned_app. simpl. now rewrite !app_nil_r.
      * assert (Hsp' : spawned (events (final (flash_led d button_id false
                  {| transport := transport w1; events := events w1 ++ [EvLog ERROR] |})))
                = spawned (events w1)).
        { rewrite flash_led_spawned. simpl. rewrite spawned_app. simpl.
          now rewrite app_nil_r. }
        destruct e1; simpl; rewrite Hsp', Hsp, !spawned_app; simpl;
          now rewrite !app_nil_r.
      * rewrite Hsp, !spawned_app. simpl. now rewrite !app_nil_r.
      * rewrite Hsp, !spawned_app. simpl. now rewrite !app_nil_r.
  - unfold bind, log, emit. simpl. rewrite flash_led_spawned. simpl.
    rewrite spawned_app. simpl. now rewrite !app_nil_r.
Qed.

(** X13. When the process starts but the transport raises on the success
    BLINK, the exception is taken for a launch failure: it is logged as an
    error and the failure flash follows, so that two BLINK lines are handed
    to the transport, 180 then 80, and no timer thread is started for the
    first. *)
Theorem launch_program_blink_raises
    (d : t) (button_id : string) (command : list string)
    (w : world T) (e : exn) (tr1 : T) :
  programs d !! button_id = Some command ->
  Popen command = None ->
  send_line (led_command (inl button_id) "BLINK" (Some 180)) (transport w) =
    Raises e tr1 ->
  let w1 := {| transport := tr1;
               events := events w ++
                 [EvLog INFO; EvPopen command;
                  EvSendLine (led_command (inl button_id) "BLINK" (Some 180));
                  EvLog ERROR] |} in
  launch_program Popen d button_id w = flash_led d button_id false w1
  /\ sent (events (final (launch_program Popen d button_id w))) =
     sent (events w) ++
       [led_command (inl button_id) "BLINK" (Some 180);
        led_command (inl button_id) "BLINK" (Some 80)].
Proof.
  intros Hcmd Hpopen Hsend w1.
  assert (Hrun : launch_program Popen d button_id w = flash_led d button_id false w1).
  { unfold launch_program. rewrite Hcmd.
    unfold bind, log, emit, try_except, spawn. cbn [transport events].
    rewrite Hpopen.
    rewrite (flash_led_raises d button_id true _ e tr1) by exact Hsend.
    subst w1.
    destruct e; cbn [transport events]; rewrite <- !app_assoc; reflexivity. }
  split; [exact Hrun|].
  rewrite Hrun, flash_led_sent. subst w1. cbn [transport events].
  rewrite sent_app, <- app_assoc. reflexivity.
Qed.

End ButtonDriverMore.

(** ** The handler on the simulation transport, and the run loop *)

Section SimulationFacts.

Import Text ButtonDriver.

Variable Popen : list string -> option exn.

(** Two descriptions of the same simulation world. *)
Ltac sim_done :=
  unfold Samples.extended;
  cbn [transport events SimulationTransport.logged SimulationTransport.stdin
       sent flat_map app];
  rewrite <- ?app_assoc; cbn [app]; rewrite ?app_nil_r; reflexivity.

Lemma extended_nil (w : world SimulationTransport.t) :
  SimulationTransport._lock (transport w) = false ->
  Samples.extended w (SimulationTransport.stdin (transport w)) [] = w.
Proof.
  destruct w as [[l i g] evs]. simpl. intros ->.
  unfold Samples.extended. simpl. now rewrite !app_nil_r.
Qed.

Lemma flash_led_sim (d : t) (button_id : string) (success : bool) (w : world SimulationTransport.t) :
  float_durations d = true ->
  SimulationTransport._lock (transport w) = false ->
  flash_led d button_id success w =
  Returns tt
    (Samples.extended w (SimulationTransport.stdin (transport w))
       [EvSendLine (led_command (inl button_id) "BLINK" (Some (flash_period success)));
        EvThreadStart button_id (flash_duration d success # 1000)]).
Proof.
  intros Hfloat Hl. apply flash_led_returns; [now apply float_durations_fit|].
  unfold send_line. simpl. unfold SimulationTransport.send_line. now rewrite Hl.
Qed.

Lemma extended_extended (w : world SimulationTransport.t) (i j : list string)
    (e1 e2 : list event) :
  Samples.extended (Samples.extended w i e1) j e2 = Samples.extended w j (e1 ++ e2).
Proof.
  unfold Samples.extended. simpl. now rewrite sent_app, !app_assoc.
Qed.

Lemma emit_sim (e : event) (w : world SimulationTransport.t) :
  SimulationTransport._lock (transport w) = false -> sent [e] = [] ->
  emit e w = Returns tt (Samples.extended w (SimulationTransport.stdin (transport w)) [e]).
Proof.
  destruct w as [[l i g] evs]. simpl. intros -> He.
  unfold emit, Samples.extended. simpl. simpl in He. rewrite He.
  now rewrite !app_nil_r.
Qed.

(** With the lock free, what [handle_line] does on the simulation
    transport depends on the line only: it returns, and adds the same
    events to any world. *)
Lemma handle_line_sim_uniform (d : t) (line : string) :
  float_durations d = true ->
  exists evs : list event,
  forall w : world SimulationTransport.t,
    SimulationTransport._lock (transport w) = false ->
    handle_line Popen d line w =
    Returns tt (Samples.extended w (SimulationTransport.stdin (transport w)) evs).
Proof.
  intros Hfloat. destruct line as [|c r].
  { exists []. intros w Hl. simpl. unfold ret. now rewrite extended_nil. }
  set (line := String c r).
  assert (Hne : line <> "") by discriminate.
  assert (Hlog : forall lvl (w : world SimulationTransport.t),
            SimulationTransport._lock (transport w) = false ->
            log lvl w =
            Returns tt (Samples.extended w (SimulationTransport.stdin (transport w))
                          [EvLog lvl])).
  { intros lvl [[l i g] evs] Hl. simpl in Hl. subst l.
    unfold log, emit, Samples.extended. simpl. now rewrite app_nil_r. }
  destruct ((upper (hd "" (split "|" line)) =? "BTN")%string
            && (3 <=? length (split "|" line))%nat) eqn:Hbtn.
  - destruct (upper (nth 2 (split "|" line) "") =? "DOWN")%string eqn:Hdown.
    + destruct (programs d !! nth 1 (split "|" line) "") as [command|] eqn:Hcmd.
      * destruct (Popen command) as [e|] eqn:Hpopen.
        -- exists [EvLog DEBUG; EvLog INFO; EvPopen command; EvLog ERROR;
                   EvSendLine (led_command (inl (nth 1 (split "|" line) "")) "BLINK"
                                 (Some (flash_period false)));
                   EvThreadStart (nth 1 (split "|" line) "")
                     (flash_duration d false # 1000)].
           intros w Hl.
           rewrite (handle_line_nonempty Popen d line w Hne). cbv zeta.
           rewrite Hbtn, Hdown.
           unfold bind. rewrite (Hlog DEBUG w Hl).
           unfold launch_program. rewrite Hcmd.
           unfold bind, log, emit, try_except, spawn. cbn [transport events].
           rewrite Hpopen.
           destruct e; cbn [transport events]; rewrite flash_led_sim by (exact Hfloat || reflexivity);
             sim_done.
        -- exists [EvLog DEBUG; EvLog INFO; EvPopen command;
                   EvSendLine (led_command (inl (nth 1 (split "|" line) "")) "BLINK"
                                 (Some (flash_period true)));
                   EvThreadStart (nth 1 (split "|" line) "")
                     (flash_duration d true # 1000)].
           intros w Hl.
           rewrite (handle_line_nonempty Popen d line w Hne). cbv zeta.
           rewrite Hbtn, Hdown.
           unfold bind. rewrite (Hlog DEBUG w Hl).
           unfold launch_program. rewrite Hcmd.
           unfold bind, log, emit, try_except, spawn. cbn [transport events].
           rewrite Hpopen.
           rewrite flash_led_sim by (exact Hfloat || reflexivity).
           sim_done.
      * exists [EvLog DEBUG; EvLog WARNING;
                EvSendLine (led_command (inl (nth 1 (split "|" line) "")) "BLINK"
                              (Some (flash_period false)));
                EvThreadStart (nth 1 (split "|" line) "")
                  (flash_duration d false # 1000)].
        intros w Hl.
        rewrite (handle_line_nonempty Popen d line w Hne). cbv zeta.
        rewrite Hbtn, Hdown.
        unfold bind. rewrite (Hlog DEBUG w Hl).
        unfold launch_program. rewrite Hcmd.
        unfold bind, log, emit. cbn [transport events].
        rewrite flash_led_sim by (exact Hfloat || reflexivity).
        sim_done.
    + exists [EvLog DEBUG]. intros w Hl.
      rewrite (handle_line_nonempty Popen d line w Hne). cbv zeta.
      rewrite Hbtn, Hdown. unfold bind. rewrite (Hlog DEBUG w Hl). reflexivity.
  - destruct (upper (hd "" (split "|" line)) =? "READY")%string eqn:Hready.
    + exists [EvLog INFO]. intros w Hl.
      rewrite (handle_line_nonempty Popen d line w Hne). cbv zeta.
      rewrite Hbtn, Hready. now apply Hlog.
    + exists [EvLog DEBUG]. intros w Hl.
      rewrite (handle_line_nonempty Popen d line w Hne). cbv zeta.
      rewrite Hbtn, Hready. now apply Hlog.
Qed.

Lemma handle_line_sim (d : t) (line : string) (w : world SimulationTransport.t) :
  float_durations d = true ->
  SimulationTransport._lock (transport w) = false ->
  handle_line Popen d line w =
  Returns tt (Samples.extended w (SimulationTransport.stdin (transport w))
                (Samples.reaction Popen d line)).
Proof.
  intros Hfloat Hl. destruct (handle_line_sim_uniform d line Hfloat) as [evs Hevs].
  assert (Hr : Samples.reaction Popen d line = evs).
  { unfold Samples.reaction. now rewrite Hevs. }
  rewrite Hr. now apply Hevs.
Qed.

Lemma run_loop_sim (d : t) (input : list string) :
  float_durations d = true ->
  forall (n : nat) (w : world SimulationTransport.t),
  SimulationTransport.stdin (transport w) = input ->
  SimulationTransport._lock (transport w) = false ->
  (length input < n)%nat ->
  run_loop Popen d n w =
  Returns tt (Samples.extended w []
                (flat_map (fun l => Samples.reaction Popen d (strip l)) input)).
Proof.
  intros Hfloat.
  induction input as [|l rest IH]; intros n w Hin Hl Hn;
    (destruct n as [|n]; [simpl in Hn; lia|]).
  - destruct w as [[lk i g] evs]. simpl in Hin, Hl. subst i lk.
    unfold Samples.extended. simpl. now rewrite !app_nil_r.
  - simpl run_loop. unfold bind at 1. unfold transport_read_line, read_line. simpl.
    unfold SimulationTransport.read_line. rewrite Hin.
    unfold bind. rewrite handle_line_sim by (exact Hfloat || exact Hl).
    cbn [transport SimulationTransport.stdin].
    rewrite (IH n) by (try reflexivity; simpl in Hn; lia).
    rewrite extended_extended.
    unfold Samples.extended. simpl. reflexivity.
Qed.

Lemma handle_lines_sim (d : t) (lines : list string) :
  float_durations d = true ->
  forall w : world SimulationTransport.t,
  SimulationTransport._lock (transport w) = false ->
  handle_lines Popen d lines w =
  Returns tt (Samples.extended w (SimulationTransport.stdin (transport w))
                (flat_map (Samples.reaction Popen d) lines)).
Proof.
  intros Hfloat. induction lines as [|l rest IH]; intros w Hl.
  - simpl. unfold ret. now rewrite extended_nil.
  - simpl handle_lines. unfold bind.
    rewrite handle_line_sim by (exact Hfloat || exact Hl).
    rewrite IH by reflexivity. simpl. now rewrite extended_extended.
Qed.

(** X14. On the simulation transport, with the lock free, enough rounds
    for the input and flash durations that can be converted to a [float]
    (as those [main] builds the driver with), the run reads every typed
    line, handles each one stripped and in order, stops at the end of the
    input and returns with the transport closed: the events are those of
    handling the stripped lines one after the other, and every line sent
    has been logged. *)
Theorem run_simulation (d : t) (n : nat) (w : world SimulationTransport.t) :
  float_durations d = true ->
  SimulationTransport._lock (transport w) = false ->
  (length (SimulationTransport.stdin (transport w)) < n)%nat ->
  let input := SimulationTransport.stdin (transport w) in
  let handled := flat_map (fun l => Samples.reaction Popen d (strip l)) input in
  run Popen d n w = Returns tt (Samples.extended w [] handled)
  /\ events (final (handle_lines Popen d (map strip input) w)) = events w ++ handled.
Proof.
  intros Hfloat Hl Hn input handled. split.
  - unfold run, finally. rewrite (run_loop_sim d input) by (auto; reflexivity).
    reflexivity.
  - rewrite handle_lines_sim by (exact Hfloat || exact Hl). simpl. f_equal.
    subst handled. now rewrite flat_map_concat_map, map_map, <- flat_map_concat_map.
Qed.

End SimulationFacts.

(** ** The simulation test *)

Section TestSimulationFacts.

Import Text ButtonDriver.

(** What a button frame does on the simulation transport when every
    spawn succeeds. *)
Lemma reaction_button_down (d : t) (button_id : string) :
  float_durations d = true ->
  contains "|" button_id = false ->
  Samples.reaction TestSimulation.fake_popen d ("BTN|" +:+ button_id +:+ "|DOWN") =
  EvLog DEBUG ::
  match programs d !! button_id with
  | Some command =>
      [EvLog INFO; EvPopen command;
       EvSendLine (led_command (inl button_id) "BLINK" (Some 180));
       EvThreadStart button_id (success_flash_ms d # 1000)]
  | None =>
      [EvLog WARNING;
       EvSendLine (led_command (inl button_id) "BLINK" (Some 80));
       EvThreadStart button_id (error_flash_ms d # 1000)]
  end.
Proof.
  intros Hfloat Hid. unfold Samples.reaction.
  rewrite (handle_line_down TestSimulation.fake_popen d "BTN" button_id "DOWN"
             Samples.sim_world eq_refl eq_refl Hid).
  unfold launch_program, bind, log, emit, try_except, spawn.
  cbn [transport events].
  destruct (programs d !! button_id) as [command|].
  - unfold TestSimulation.fake_popen. rewrite flash_led_sim by (exact Hfloat || reflexivity).
    reflexivity.
  - rewrite flash_led_sim by (exact Hfloat || reflexivity). reflexivity.
Qed.

(** The BLINK line and the spawn that button [b] of the test gets. *)
Lemma inject_sim (programs : gmap string (list string)) (buttons : list Z) :
  forall w : world SimulationTransport.t,
  SimulationTransport._lock (transport w) = false ->
  exists evs,
    TestSimulation.inject (ButtonDriver.__init__ programs) buttons w =
      Returns tt (Samples.extended w (SimulationTransport.stdin (transport w)) evs)
    /\ sent evs =
       map (fun b => led_command (inl (str_of_int b)) "BLINK"
                       (Some (match programs !! str_of_int b with
                              | Some _ => 180
                              | None => 80
                              end))) buttons
    /\ spawned evs =
       flat_map (fun b => match programs !! str_of_int b with
                          | Some command => [command]
                          | None => []
                          end) buttons.
Proof.
  induction buttons as [|b rest IH]; intros w Hl.
  - exists []. simpl. unfold ret. now rewrite extended_nil.
  - cbn [TestSimulation.inject]. unfold bind.
    unfold log. rewrite emit_sim by (exact Hl || reflexivity).
    rewrite (handle_line_sim TestSimulation.fake_popen) by reflexivity.
    rewrite emit_sim by reflexivity.
    cbn [transport SimulationTransport.stdin Samples.extended].
    destruct (IH (Samples.extended
                    (Samples.extended
                       (Samples.extended w (SimulationTransport.stdin (transport w))
                          [EvLog INFO])
                       (SimulationTransport.stdin (transport w))
                       (Samples.reaction TestSimulation.fake_popen
                          (ButtonDriver.__init__ programs) (TestSimulation.message b)))
                    (SimulationTransport.stdin (transport w))
                    [EvSleep (2 # 10)])) as (evs & Hrun & Hsent & Hsp);
      [reflexivity|].
    exists ([EvLog INFO] ++
            Samples.reaction TestSimulation.fake_popen
              (ButtonDriver.__init__ programs) (TestSimulation.message b) ++
            [EvSleep (2 # 10)] ++ evs).
    split; [|split].
    + unfold Samples.extended in Hrun |- *. cbn [transport events
        SimulationTransport.stdin SimulationTransport.logged] in Hrun |- *.
      rewrite Hrun. rewrite !sent_app. rewrite <- !app_assoc. reflexivity.
    + rewrite !sent_app, Hsent. unfold TestSimulation.message.
      rewrite reaction_button_down by (reflexivity || apply str_of_int_no_pipe).
      cbn [ButtonDriver.programs ButtonDriver.__init__ map flat_map].
      destruct (programs !! str_of_int b); reflexivity.
    + rewrite !spawned_app, Hsp. unfold TestSimulation.message.
      rewrite reaction_button_down by (reflexivity || apply str_of_int_no_pipe).
      cbn [ButtonDriver.programs ButtonDriver.__init__ map flat_map].
      destruct (programs !! str_of_int b); reflexivity.
Qed.

(** X15. Whatever the registry, the simulation test returns normally:
    each of the buttons 1 to 4 gets exactly one BLINK line, with period 180
    when the button is mapped and 80 when it is not, and the commands of
    the mapped buttons are spawned in that order. *)
Theorem test_simulation_main (programs : gmap string (list string))
    (w : world SimulationTransport.t) :
  SimulationTransport._lock (transport w) = false ->
  exists w',
    TestSimulation.main programs w = Returns tt w'
    /\ sent (events w') = sent (events w) ++
         map (fun b => led_command (inl (str_of_int b)) "BLINK"
                         (Some (match programs !! str_of_int b with
                                | Some _ => 180
                                | None => 80
                                end))) [1; 2; 3; 4]
    /\ spawned (events w') = spawned (events w) ++
         flat_map (fun b => match programs !! str_of_int b with
                            | Some command => [command]
                            | None => []
                            end) [1; 2; 3; 4].
Proof.
  intros Hl. destruct (inject_sim programs [1; 2; 3; 4] w Hl) as (evs & Hrun & Hsent & Hsp).
  eexists. split; [exact Hrun|].
  unfold Samples.extended. cbn [events].
  rewrite sent_app, spawned_app, Hsent, Hsp. split; reflexivity.
Qed.

End TestSimulationFacts.

(** ** The run loop on the hardware transport *)

Section SerialRunFacts.

Import ButtonDriver.

Variable utf8 : SerialTransport.codec.
Variable dev : SerialTransport.device.
Variable fuel : nat.
Variable Popen : list string -> option exn.

#[local] Existing Instance SerialTransport_TransportBase.

Lemma serial_read_line_text (st : SerialTransport.t) :
  match SerialTransport.read_line utf8 dev fuel st with
  | Returns v _ => v <> None
  | Raises _ _ => False
  | Blocks _ | OutOfFuel _ => True
  end.
Proof.
  unfold SerialTransport.read_line, bind.
  destruct (SerialTransport._require_serial utf8 dev fuel st) as [ser s|e s|s|s] eqn:Hreq;
    try exact I; [|now apply require_serial_no_raise in Hreq].
  unfold try_except, bind, SerialTransport.readline.
  destruct (SerialTransport.is_open ser); [|discriminate].
  destruct (SerialTransport.readline_result dev (SerialTransport.reads s)) as [data|];
    simpl; [|discriminate].
  destruct data; discriminate.
Qed.

Lemma run_loop_serial (d : t) (n : nat) :
  float_durations d = true ->
  forall w : world SerialTransport.t,
  comes_back (run_loop (H := SerialTransport_TransportBase utf8 dev fuel) Popen d n w)
  = false.
Proof.
  intros Hfloat. induction n as [|n IH]; intros w; [reflexivity|].
  cbn [run_loop]. unfold bind at 1. unfold transport_read_line, read_line. simpl.
  pose proof (serial_read_line_text (transport w)) as Hread.
  destruct (SerialTransport.read_line utf8 dev fuel (transport w)) as [v tr|e tr|tr|tr];
    try reflexivity; [|contradiction].
  destruct v as [l|]; [|congruence].
  unfold bind.
  match goal with
  | |- context [handle_line Popen d l ?w1] =>
      destruct (handle_line Popen d l w1) as [[] w2|e w2|w2|w2] eqn:Hh
  end; try reflexivity.
  - apply IH.
  - exfalso. revert Hh. apply handle_line_no_raise; [|exact Hfloat].
    intros line tr0 e' tr'. simpl. apply send_line_no_raise.
Qed.

(** X16. On the hardware transport, with flash durations that can be
    converted to a [float] (as those [main] builds the driver with), the
    run never comes back on its own: [read_line] never signals the end of
    the stream and no exception leaves the loop, so the run neither returns
    nor raises (short of an operator's interrupt, which is outside the
    model). *)
Theorem run_serial_never_ends (d : t) (n : nat) (w : world SerialTransport.t) :
  float_durations d = true ->
  comes_back (run (H := SerialTransport_TransportBase utf8 dev fuel) Popen d n w) = false.
Proof.
  intros Hfloat. unfold run, finally.
  pose proof (run_loop_serial d n Hfloat w) as Hloop.
  destruct (run_loop Popen d n w); try discriminate Hloop; reflexivity.
Qed.

End SerialRunFacts.

(** ** More on the configuration *)

Section ConfigMore.

Import Text Config.

Variable repr_seq : list string -> string.

(** X17. [normalize_program] raises in two cases only: [TypeError] for an
    entry that is neither a string, a sequence nor a dict, and
    [ValueError] for a dict whose command is missing or falsy (an empty
    string, an empty list, zero). *)
Theorem normalize_program_raises_iff (entry : ProgramEntry) (e : exn) :
  normalize_program repr_seq entry = Raise e <->
  (e = TypeError /\ exists n, entry = EValue (VInt n))
  \/ (e = ValueError
      /\ exists d, entry = EDict d
         /\ (d !! "command" = None
             \/ exists command, d !! "command" = Some command /\ truthy command = false)).
Proof.
  split.
  - destruct entry as [[s|l|n]|d]; simpl; try discriminate.
    + intros [= <-]. left. eauto.
    + destruct (d !! "command") as [command|] eqn:Hc.
      * destruct (truthy command) eqn:Ht; simpl.
        -- destruct (default (VSeq []) (d !! "args")); discriminate.
        -- intros [= <-]. right. split; [reflexivity|]. exists d. eauto.
      * intros [= <-]. right. split; [reflexivity|]. exists d. eauto.
  - intros [[-> [n ->]]|[-> (d & -> & [Hc|(command & Hc & Ht)])]]; simpl.
    + reflexivity.
    + now rewrite Hc.
    + now rewrite Hc, Ht.
Qed.

(** X18. A dict entry with a usable command becomes the command followed
    by its arguments: none when [args] is absent, the items of a list, the
    characters of a string, the decimal form of a number. *)
Theorem normalize_program_dict (d : gmap string value) (command : value) :
  d !! "command" = Some command -> truthy command = true ->
  normalize_program repr_seq (EDict d) =
  Ok (str repr_seq command ::
      match d !! "args" with
      | None => []
      | Some (VStr s) => chars s
      | Some (VSeq l) => l
      | Some (VInt n) => [str_of_int n]
      end).
Proof.
  intros Hc Ht. unfold normalize_program. rewrite Hc, Ht. simpl.
  destruct (d !! "args") as [[s|l|n]|]; reflexivity.
Qed.

Lemma load_entries_lookup (items : list (string * ProgramEntry)) :
  forall acc programs : gmap string (list string),
  load_entries repr_seq items acc = Ok programs ->
  NoDup (map fst items) ->
  forall key tokens,
    programs !! key = Some tokens <->
    (exists entry, In (key, entry) items /\ normalize_program repr_seq entry = Ok tokens)
    \/ (~ In key (map fst items) /\ acc !! key = Some tokens).
Proof.
  induction items as [|[k v] rest IH]; intros acc programs Hload Hnd key tokens.
  - simpl in Hload. inversion Hload; subst. split.
    + intros Hk. right. split; [intros []|exact Hk].
    + intros [(entry & [] & _)|[_ Hk]]. exact Hk.
  - simpl in Hload.
    destruct (normalize_program repr_seq v) as [t|e] eqn:Hv; [|discriminate Hload].
    apply NoDup_cons in Hnd as [Hk Hnd]. simpl in Hk.
    rewrite (IH _ _ Hload Hnd key tokens). simpl. split.
    + intros [(entry & Hin & Hn)|[Hnot Hacc]].
      * left. exists entry. auto.
      * destruct (decide (k = key)) as [->|Hne].
        -- rewrite lookup_insert_eq in Hacc. inversion Hacc; subst.
           left. exists v. auto.
        -- rewrite lookup_insert_ne in Hacc by exact Hne.
           right. split; [|exact Hacc]. intros [Heq|Hin]; [congruence|auto].
    + intros [(entry & [Heq|Hin] & Hn)|[Hnot Hacc]].
      * inversion Heq; subst. right. split.
        -- intros Hin. apply Hk. now apply list_elem_of_In.
        -- rewrite lookup_insert_eq. congruence.
      * left. exists entry. auto.
      * right. split; [tauto|].
        rewrite lookup_insert_ne; [exact Hacc|]. intros ->. tauto.
Qed.

Lemma load_entries_ok (items : list (string * ProgramEntry)) :
  forall acc : gmap string (list string),
  (exists programs, load_entries repr_seq items acc = Ok programs) <->
  Forall (fun item => exists tokens, normalize_program repr_seq (snd item) = Ok tokens) items.
Proof.
  induction items as [|[k v] rest IH]; intros acc; simpl.
  - split; [constructor|eauto].
  - destruct (normalize_program repr_seq v) as [t|e] eqn:Hv.
    + rewrite IH. split.
      * intros Hrest. constructor; [simpl; eauto|exact Hrest].
      * intros Hall. now inversion Hall.
    + split.
      * intros [programs Hp]. discriminate Hp.
      * intros Hall. apply Forall_inv in Hall as [tokens Ht].
        simpl in Ht. congruence.
Qed.

Lemma load_entries_raises (items : list (string * ProgramEntry)) :
  forall (acc : gmap string (list string)) (e : exn),
  load_entries repr_seq items acc = Raise e -> e = ValueError.
Proof.
  induction items as [|[k v] rest IH]; intros acc e; simpl; [discriminate|].
  destruct (normalize_program repr_seq v); [apply IH|congruence].
Qed.

Lemma load_entries_raise_exists (items : list (string * ProgramEntry)) :
  forall (acc : gmap string (list string)) (e : exn),
  load_entries repr_seq items acc = Raise e ->
  Exists (fun item => exists e', normalize_program repr_seq (snd item) = Raise e') items.
Proof.
  induction items as [|[k v] rest IH]; intros acc e; simpl; [discriminate|].
  destruct (normalize_program repr_seq v) as [t|e0] eqn:Hv.
  - intros Hrest. apply Exists_cons_tl. now apply IH in Hrest.
  - intros _. apply Exists_cons_hd. simpl. eauto.
Qed.

Lemma load_entries_nonempty (items : list (string * ProgramEntry)) :
  forall acc programs : gmap string (list string),
  load_entries repr_seq items acc = Ok programs ->
  items <> [] \/ acc <> ∅ -> programs <> ∅.
Proof.
  induction items as [|[k v] rest IH]; intros acc programs Hload Hne.
  - simpl in Hload. inversion Hload; subst. destruct Hne; congruence.
  - simpl in Hload. destruct (normalize_program repr_seq v); [|discriminate Hload].
    apply (IH _ _ Hload). right. apply insert_non_empty.
Qed.

(** X19. When [load_programs] succeeds on an object with distinct keys, the
    registry maps a key to a token list exactly when the configuration has
    an entry under that key and [normalize_program] turns it into that
    list; and the registry is not empty. *)
Theorem load_programs_registry
    (data : list (string * ProgramEntry)) (programs : gmap string (list string)) :
  load_programs repr_seq (Object data) = Ok programs ->
  NoDup (map fst data) ->
  programs <> ∅
  /\ forall key tokens,
       programs !! key = Some tokens <->
       exists entry, In (key, entry) data /\ normalize_program repr_seq entry = Ok tokens.
Proof.
  unfold load_programs. intros Hload Hnd.
  destruct (load_entries repr_seq data ∅) as [p|e] eqn:Hentries; [|discriminate Hload].
  destruct (decide (p = ∅)) as [|Hne]; [discriminate Hload|].
  inversion Hload; subst. split; [exact Hne|].
  intros key tokens. rewrite (load_entries_lookup data ∅ programs Hentries Hnd).
  split.
  - intros [Hin|[_ Hempty]]; [exact Hin|]. rewrite lookup_empty in Hempty. discriminate.
  - intros Hin. now left.
Qed.

(** X20. [load_programs] succeeds exactly when the configuration holds a
    JSON object with at least one entry, every entry of which normalises.
    Otherwise it raises: [FileNotFoundError] for a missing file; the
    exception of [read_text] or [json.loads] when the file cannot be read
    or parsed; [AttributeError] for JSON that is not an object; and
    [ValueError] for an object that is empty or holds a malformed entry,
    never the [TypeError] of [normalize_program]. *)
Theorem load_programs_ok_iff (config : config_file) :
  ((exists programs, load_programs repr_seq config = Ok programs) <->
   exists data, config = Object data /\ data <> []
     /\ Forall (fun item => exists tokens,
                  normalize_program repr_seq (snd item) = Ok tokens) data)
  /\ forall e, load_programs repr_seq config = Raise e ->
       match config with
       | Missing => e = FileNotFoundError
       | Unreadable e' => e = e'
       | NotAnObject => e = AttributeError
       | Object data =>
           e = ValueError
           /\ (data = []
               \/ Exists (fun item => exists e', normalize_program repr_seq (snd item) = Raise e')
                    data)
       end.
Proof.
  split.
  - split.
    + intros [programs Hload].
      destruct config as [|e'| |data]; try discriminate Hload.
      exists data. split; [reflexivity|]. unfold load_programs in Hload.
      destruct (load_entries repr_seq data ∅) as [p|e] eqn:Hentries; [|discriminate Hload].
      destruct (decide (p = ∅)) as [Hemp|Hne]; [discriminate Hload|].
      split.
      * intros ->. simpl in Hentries. congruence.
      * apply (load_entries_ok data ∅). eauto.
    + intros (data & -> & Hne & Hall).
      apply (load_entries_ok data ∅) in Hall as [p Hp].
      exists p. unfold load_programs. rewrite Hp.
      destruct (decide (p = ∅)) as [Hemp|]; [|reflexivity].
      exfalso. revert Hemp. apply (load_entries_nonempty data ∅ p Hp). now left.
  - intros e Hload. destruct config as [|e'| |data]; simpl in Hload; try congruence.
    destruct (load_entries repr_seq data ∅) as [p|e0] eqn:Hentries.
    + destruct (decide (p = ∅)) as [Hemp|]; [|discriminate Hload].
      split; [congruence|]. left.
      destruct data as [|item rest]; [reflexivity|]. exfalso. revert Hemp.
      apply (load_entries_nonempty (item :: rest) ∅ p Hentries). now left.
    + split.
      * apply load_entries_raises in Hentries. congruence.
      * right. apply (load_entries_raise_exists data ∅ e0 Hentries).
Qed.

End ConfigMore.

(** ** Choosing the port *)

Section PortsFacts.

Import Text Ports.

(** X21. [auto_detect_port] fails exactly when no port was given on the
    command line (absent or empty) and pyserial is missing or lists no
    port; an explicit port is returned as it is, with or without pyserial. *)
Theorem auto_detect_port_fails_iff
    (user_port : option string) (comports : option (list port)) :
  (auto_detect_port user_port comports = RuntimeError <->
   (user_port = None \/ user_port = Some "")
   /\ (comports = None \/ comports = Some []))
  /\ forall p, user_port = Some p -> p <> "" ->
       auto_detect_port user_port comports = Found p.
Proof.
  split.
  - unfold auto_detect_port.
    destruct user_port as [[|c r]|]; destruct comports as [[|first rest]|];
      try destruct (find looks_like_arduino (first :: rest));
      split; intuition congruence.
  - intros p -> Hp. destruct p; [congruence|reflexivity].
Qed.

(** X22. Without an explicit port, the first listed port whose description
    names a chip is chosen, wherever it stands in the list. *)
Theorem auto_detect_port_first_match
    (user_port : option string) (before after : list port) (p : port) :
  user_port = None \/ user_port = Some "" ->
  Forall (fun q => looks_like_arduino q = false) before ->
  looks_like_arduino p = true ->
  auto_detect_port user_port (Some (before ++ p :: after)) = Found (device p).
Proof.
  intros Huser Hbefore Hp.
  assert (Hfind : find looks_like_arduino (before ++ p :: after) = Some p).
  { induction Hbefore as [|q before Hq _ IH]; simpl.
    - now rewrite Hp.
    - now rewrite Hq. }
  assert (Hne : before ++ p :: after <> []) by (destruct before; discriminate).
  unfold auto_detect_port.
  destruct (before ++ p :: after) as [|first rest]; [congruence|].
  rewrite Hfind. destruct Huser as [->| ->]; reflexivity.
Qed.

(** X23. Without an explicit port, when no description names a chip, the
    first listed port is chosen. *)
Theorem auto_detect_port_fallback
    (user_port : option string) (first : port) (rest : list port) :
  user_port = None \/ user_port = Some "" ->
  Forall (fun q => looks_like_arduino q = false) (first :: rest) ->
  auto_detect_port user_port (Some (first :: rest)) = Found (device first).
Proof.
  intros Huser Hall.
  assert (Hfind : find looks_like_arduino (first :: rest) = None).
  { induction Hall as [|q l Hq _ IH]; simpl; [reflexivity|now rewrite Hq]. }
  unfold auto_detect_port. rewrite Hfind.
  destruct Huser as [->| ->]; reflexivity.
Qed.

End PortsFacts.

Example looks_like_arduino_ch340 :
  Ports.looks_like_arduino
    {| Ports.device := "COM5"; Ports.description := Some "USB-SERIAL CH340 (COM5)" |} = true.
Proof. reflexivity. Qed.

Example looks_like_arduino_other :
  Ports.looks_like_arduino
    {| Ports.device := "COM1"; Ports.description := Some "Communications Port (COM1)" |} = false.
Proof. reflexivity. Qed.

(** ** The properties above at sample inputs *)

Lemma connect_with_retry_connects_witness :
  (2 < 3)%nat
  /\ SerialTransport._lock (SerialTransport.fresh "COM3" 115200) = false
  /\ SerialTransport.serial (SerialTransport.fresh "COM3" 115200) = None
  /\ (forall j, (j < 2)%nat ->
        SerialTransport.open_result Samples.flaky_port (0 + j) = false)
  /\ SerialTransport.open_result Samples.flaky_port (0 + 2) = true
  /\ SerialTransport.write_result Samples.flaky_port 0 = true
  /\ exists st',
       SerialTransport.__init__ SerialTransport.ascii_codec Samples.flaky_port 3
         "COM3" 115200 = Returns tt st'
       /\ SerialTransport.serial st' = Some {| SerialTransport.is_open := true |}
       /\ SerialTransport._lock st' = false
       /\ SerialTransport.opens st' = 3%nat
       /\ SerialTransport.slept (SerialTransport.trace st') =
            [SerialTransport.backoff; SerialTransport.backoff; 2%Q]
       /\ SerialTransport.wire (SerialTransport.trace st') =
            [list_byte_of_string "HELLO|PC
"].
Proof.
  assert (Hfail : forall j, (j < 2)%nat ->
            SerialTransport.open_result Samples.flaky_port (0 + j) = false).
  { intros [|[|j]] Hj; [reflexivity|reflexivity|].
    exfalso. apply Nat.lt_nge in Hj. apply Hj. do 2 apply le_n_S. apply Nat.le_0_l. }
  split; [do 3 constructor|].
  do 5 (split; [first [exact Hfail|reflexivity]|]).
  apply (connect_with_retry_connects SerialTransport.ascii_codec Samples.flaky_port
           2 3 (SerialTransport.fresh "COM3" 115200));
    first [exact Hfail|reflexivity|do 3 constructor].
Defined.

Lemma send_line_connected_writes_witness :
  (1 <= 1)%nat
  /\ SerialTransport._lock Samples.connected = false
  /\ SerialTransport.stale Samples.connected = false
  /\ SerialTransport.write_result Samples.healthy
       (SerialTransport.writes Samples.connected) = true
  /\ exists st',
       SerialTransport.send_line SerialTransport.ascii_codec Samples.healthy 1
         "  LED|1|OFF " Samples.connected = Returns tt st'
       /\ SerialTransport.wire (SerialTransport.trace st') =
          SerialTransport.wire (SerialTransport.trace Samples.connected) ++
          [list_byte_of_string "LED|1|OFF
"]
       /\ SerialTransport._lock st' = false
       /\ SerialTransport.serial st' = SerialTransport.serial Samples.connected
       /\ SerialTransport.opens st' = SerialTransport.opens Samples.connected
       /\ SerialTransport.send_line SerialTransport.ascii_codec Samples.healthy 1
            "LED|1|OFF" Samples.connected = Returns tt st'.
Proof.
  split; [constructor|]. do 3 (split; [reflexivity|]).
  apply (send_line_connected_writes SerialTransport.ascii_codec Samples.healthy
           1 "  LED|1|OFF " Samples.connected);
    first [reflexivity|constructor].
Defined.

Lemma send_line_stale_blocks_witness :
  (0 + 2 <= 2)%nat
  /\ SerialTransport._lock Samples.disconnected = false
  /\ SerialTransport.stale Samples.disconnected = true
  /\ SerialTransport.open_result Samples.healthy
       (SerialTransport.opens Samples.disconnected + 0) = true
  /\ exists st',
       SerialTransport.send_line SerialTransport.ascii_codec Samples.healthy 2
         "LED|1|OFF" Samples.disconnected = Blocks st'
       /\ SerialTransport._lock st' = true
       /\ SerialTransport.opens st' =
          (SerialTransport.opens Samples.disconnected + 0 + 1)%nat
       /\ SerialTransport.writes st' = SerialTransport.writes Samples.disconnected.
Proof.
  split; [constructor|]. do 3 (split; [reflexivity|]).
  apply (send_line_stale_blocks SerialTransport.ascii_codec Samples.healthy
           0 2 "LED|1|OFF" Samples.disconnected);
    first [reflexivity|constructor|idtac].
  intros j Hj. exfalso. inversion Hj.
Defined.

Lemma read_line_data_witness :
  SerialTransport.stale Samples.connected = false
  /\ SerialTransport.readline_result Samples.pressing
       (SerialTransport.reads Samples.connected) =
     Some (list_byte_of_string " BTN|1|DOWN
")
  /\ SerialTransport.read_line SerialTransport.ascii_codec Samples.pressing 0
       Samples.connected =
     Returns (Some "BTN|1|DOWN")
       (SerialTransport.emit
          (SerialTransport.IoReadline (Some (list_byte_of_string " BTN|1|DOWN
")))
          (SerialTransport.next_read Samples.connected)).
Proof.
  repeat (split; [reflexivity|]).
  apply (read_line_data SerialTransport.ascii_codec Samples.pressing 0
           Samples.connected (list_byte_of_string " BTN|1|DOWN
"));
    reflexivity.
Defined.

Lemma read_line_reconnects_witness :
  (2 < 3)%nat
  /\ SerialTransport._lock (SerialTransport.fresh "COM3" 115200) = false
  /\ SerialTransport.stale (SerialTransport.fresh "COM3" 115200) = true
  /\ (forall j, (j < 2)%nat ->
        SerialTransport.open_result Samples.flaky_port (0 + j) = false)
  /\ SerialTransport.open_result Samples.flaky_port (0 + 2) = true
  /\ SerialTransport.write_result Samples.flaky_port 0 = true
  /\ SerialTransport.read_line SerialTransport.ascii_codec Samples.flaky_port 3
       (SerialTransport.fresh "COM3" 115200) =
     SerialTransport.read_line SerialTransport.ascii_codec Samples.flaky_port 3
       (SerialTransport.handshaken (list_byte_of_string "HELLO|PC
")
          (SerialTransport.retried 2 (SerialTransport.fresh "COM3" 115200))).
Proof.
  assert (Hfail : forall j, (j < 2)%nat ->
            SerialTransport.open_result Samples.flaky_port (0 + j) = false).
  { intros [|[|j]] Hj; [reflexivity|reflexivity|].
    exfalso. apply Nat.lt_nge in Hj. apply Hj. do 2 apply le_n_S. apply Nat.le_0_l. }
  split; [do 3 constructor|].
  do 5 (split; [first [exact Hfail|reflexivity]|]).
  apply (read_line_reconnects SerialTransport.ascii_codec Samples.flaky_port
           2 3 (SerialTransport.fresh "COM3" 115200));
    first [exact Hfail|reflexivity|do 3 constructor].
Defined.

Lemma handle_line_other_action_witness :
  Text.upper (hd "" (Text.split "|" "BTN|1|UP")) = "BTN"
  /\ (3 <= length (Text.split "|" "BTN|1|UP"))%nat
  /\ Text.upper (nth 2 (Text.split "|" "BTN|1|UP") "") <> "DOWN"
  /\ ButtonDriver.handle_line Samples.Popen_ok Samples.driver "BTN|1|UP"
       Samples.sim_world =
     Returns tt
       {| ButtonDriver.transport := SimulationTransport.fresh [];
          ButtonDriver.events := [ButtonDriver.EvLog DEBUG] |}.
Proof.
  split; [reflexivity|]. split; [do 3 constructor|]. split; [discriminate|].
  apply (handle_line_other_action Samples.Popen_ok Samples.driver "BTN|1|UP"
           Samples.sim_world);
    first [reflexivity|do 3 constructor|discriminate].
Defined.

Lemma handle_line_ready_witness :
  Text.upper (hd "" (Text.split "|" "Ready|v1|4 buttons")) = "READY"
  /\ ButtonDriver.handle_line Samples.Popen_ok Samples.driver "Ready|v1|4 buttons"
       Samples.sim_world =
     Returns tt
       {| ButtonDriver.transport := SimulationTransport.fresh [];
          ButtonDriver.events := [ButtonDriver.EvLog INFO] |}.
Proof.
  split; [reflexivity|].
  apply (handle_line_ready Samples.Popen_ok Samples.driver "Ready|v1|4 buttons"
           Samples.sim_world).
  reflexivity.
Defined.

Lemma handle_line_trailing_fields_witness :
  Text.upper "BTN" = "BTN" /\ Text.contains "|" "1" = false
  /\ Text.contains "|" "DOWN" = false
  /\ ButtonDriver.handle_line Samples.Popen_ok Samples.driver "BTN|1|DOWN|17|x"
       Samples.sim_world =
     ButtonDriver.handle_line Samples.Popen_ok Samples.driver "BTN|1|DOWN"
       Samples.sim_world.
Proof.
  repeat (split; [reflexivity|]).
  apply (handle_line_trailing_fields Samples.Popen_ok Samples.driver
           "BTN" "1" "DOWN" "17|x" Samples.sim_world);
    reflexivity.
Defined.

Lemma launch_program_blink_raises_witness :
  let w := {| ButtonDriver.transport := tt; ButtonDriver.events := [] |} in
  ButtonDriver.programs Samples.driver !! "1" = Some ["notepad.exe"]
  /\ Samples.Popen_ok ["notepad.exe"] = None
  /\ send_line (TransportBase := Samples.broken_transport) "LED|1|BLINK|180" tt =
     Raises OSError tt
  /\ ButtonDriver.sent (ButtonDriver.events (final
       (ButtonDriver.launch_program (H := Samples.broken_transport)
          Samples.Popen_ok Samples.driver "1" w))) =
     ["LED|1|BLINK|180"; "LED|1|BLINK|80"].
Proof.
  cbv zeta. repeat (split; [reflexivity|]).
  apply (launch_program_blink_raises (H := Samples.broken_transport)
           Samples.Popen_ok Samples.driver "1" ["notepad.exe"]
           {| ButtonDriver.transport := tt; ButtonDriver.events := [] |} OSError tt);
    reflexivity.
Defined.

Lemma run_simulation_witness :
  ButtonDriver.float_durations Samples.driver = true
  /\ SimulationTransport._lock (ButtonDriver.transport Samples.typing_world) = false
  /\ (length (SimulationTransport.stdin (ButtonDriver.transport Samples.typing_world))
      < 5)%nat
  /\ ButtonDriver.run Samples.Popen_ok Samples.driver 5 Samples.typing_world =
     Returns tt
       (Samples.extended Samples.typing_world []
          (flat_map (fun l => Samples.reaction Samples.Popen_ok Samples.driver
                                (Text.strip l)) Samples.typed)).
Proof.
  split; [reflexivity|]. split; [reflexivity|]. split; [do 5 constructor|].
  apply (run_simulation Samples.Popen_ok Samples.driver 5 Samples.typing_world);
    first [reflexivity|do 5 constructor].
Defined.

(** The scenario, run: two launches with their success flash around one
    failure flash and one ignored line. *)
Example run_scenario :
  ButtonDriver.events (final
    (ButtonDriver.run Samples.Popen_ok Samples.driver 5 Samples.typing_world)) =
  [ButtonDriver.EvLog DEBUG; ButtonDriver.EvLog INFO;
   ButtonDriver.EvPopen ["notepad.exe"];
   ButtonDriver.EvSendLine "LED|1|BLINK|180";
   ButtonDriver.EvThreadStart "1" (1200 # 1000);
   ButtonDriver.EvLog DEBUG; ButtonDriver.EvLog WARNING;
   ButtonDriver.EvSendLine "LED|9|BLINK|80";
   ButtonDriver.EvThreadStart "9" (2000 # 1000);
   ButtonDriver.EvLog DEBUG;
   ButtonDriver.EvLog DEBUG; ButtonDriver.EvLog INFO;
   ButtonDriver.EvPopen ["bash"; "-c"; "echo hi"];
   ButtonDriver.EvSendLine "LED|2|BLINK|180";
   ButtonDriver.EvThreadStart "2" (1200 # 1000)].
Proof. vm_compute. reflexivity. Qed.

Lemma test_simulation_main_witness :
  SimulationTransport._lock (ButtonDriver.transport Samples.sim_world) = false
  /\ exists w',
       TestSimulation.main Samples.registry Samples.sim_world = Returns tt w'
       /\ ButtonDriver.sent (ButtonDriver.events w') =
          ["LED|1|BLINK|180"; "LED|2|BLINK|180"; "LED|3|BLINK|80"; "LED|4|BLINK|80"]
       /\ ButtonDriver.spawned (ButtonDriver.events w') =
          [["notepad.exe"]; ["bash"; "-c"; "echo hi"]].
Proof.
  split; [reflexivity|].
  apply (test_simulation_main Samples.registry Samples.sim_world).
  reflexivity.
Defined.

Lemma normalize_program_dict_witness :
  let d : gmap string Config.value := {[ "command" := Config.VStr "notepad.exe" ]} in
  d !! "command" = Some (Config.VStr "notepad.exe")
  /\ Config.truthy (Config.VStr "notepad.exe") = true
  /\ Config.normalize_program (fun _ => "") (Config.EDict d) = Config.Ok ["notepad.exe"].
Proof.
  cbv zeta. repeat (split; [vm_compute; reflexivity|]).
  pose proof (normalize_program_dict (fun _ => "")
                {[ "command" := Config.VStr "notepad.exe" ]}
                (Config.VStr "notepad.exe")) as Hdict.
  specialize (Hdict ltac:(vm_compute; reflexivity) ltac:(vm_compute; reflexivity)).
  vm_compute in Hdict |- *. exact Hdict.
Defined.

Lemma load_programs_registry_witness :
  Config.load_programs (fun _ => "") (Config.Object Samples.config) =
    Config.Ok Samples.registry
  /\ NoDup (map fst Samples.config)
  /\ Samples.registry <> ∅
  /\ forall key tokens,
       Samples.registry !! key = Some tokens <->
       exists entry, In (key, entry) Samples.config
         /\ Config.normalize_program (fun _ => "") entry = Config.Ok tokens.
Proof.
  assert (Hload : Config.load_programs (fun _ => "") (Config.Object Samples.config) =
                  Config.Ok Samples.registry) by (vm_compute; reflexivity).
  assert (Hnd : NoDup (map fst Samples.config)).
  { apply (bool_decide_unpack _). vm_compute. exact I. }
  split; [exact Hload|]. split; [exact Hnd|].
  apply (load_programs_registry (fun _ => "") Samples.config Samples.registry Hload Hnd).
Defined.

Lemma auto_detect_port_first_match_witness :
  ((None : option string) = None \/ None = Some "")
  /\ Forall (fun q => Ports.looks_like_arduino q = false) [Samples.com1]
  /\ Ports.looks_like_arduino Samples.com5 = true
  /\ Ports.auto_detect_port None (Some [Samples.com1; Samples.com5]) = Ports.Found "COM5".
Proof.
  split; [now left|]. split; [repeat constructor|]. split; [reflexivity|].
  apply (auto_detect_port_first_match None [Samples.com1] [] Samples.com5);
    [now left|repeat constructor|reflexivity].
Defined.

Lemma auto_detect_port_fallback_witness :
  (Some "" = None \/ Some "" = Some "")
  /\ Forall (fun q => Ports.looks_like_arduino q = false) [Samples.com1]
  /\ Ports.auto_detect_port (Some "") (Some [Samples.com1]) = Ports.Found "COM1".
Proof.
  split; [now right|]. split; [repeat constructor|].
  apply (auto_detect_port_fallback (Some "") Samples.com1 []);
    [now right|repeat constructor].
Defined.

Lemma run_serial_never_ends_witness :
  ButtonDriver.float_durations Samples.driver = true
  /\ comes_back
       (ButtonDriver.run
          (H := SerialTransport_TransportBase SerialTransport.ascii_codec Samples.pressing 3)
          Samples.Popen_ok Samples.driver 4
          {| ButtonDriver.transport := Samples.connected; ButtonDriver.events := [] |})
     = false.
Proof.
  split; [reflexivity|].
  apply (run_serial_never_ends SerialTransport.ascii_codec Samples.pressing 3
           Samples.Popen_ok Samples.driver 4
           {| ButtonDriver.transport := Samples.connected; ButtonDriver.events := [] |}).
  reflexivity.
Defined.

Lemma read_line_failure_defers_reconnect_witness :
  SerialTransport._require_serial SerialTransport.ascii_codec Samples.one_read_failure
    2 Samples.connected = Returns {| SerialTransport.is_open := true |} Samples.connected
  /\ SerialTransport.readline Samples.one_read_failure
       {| SerialTransport.is_open := true |} Samples.connected =
     Raises SerialException
       (SerialTransport.emit (SerialTransport.IoReadline None)
          (SerialTransport.next_read Samples.connected))
  /\ SerialTransport._lock Samples.connected = false
  /\ (0 + 2 <= 2)%nat
  /\ SerialTransport.open_result Samples.one_read_failure
       (SerialTransport.opens Samples.connected + 0) = true
  /\ SerialTransport.write_result Samples.one_read_failure
       (SerialTransport.writes Samples.connected) = true
  /\ SerialTransport.read_line SerialTransport.ascii_codec Samples.one_read_failure
       2 Samples.connected =
     Returns (Some "")
       (SerialTransport.set_serial None
          (SerialTransport.emit (SerialTransport.IoLog WARNING)
             (SerialTransport.emit (SerialTransport.IoReadline None)
                (SerialTransport.next_read Samples.connected))))
  /\ exists st',
       SerialTransport.send_line SerialTransport.ascii_codec Samples.one_read_failure
         2 "LED|1|OFF"
         (SerialTransport.set_serial None
            (SerialTransport.emit (SerialTransport.IoLog WARNING)
               (SerialTransport.emit (SerialTransport.IoReadline None)
                  (SerialTransport.next_read Samples.connected)))) = Blocks st'
       /\ SerialTransport._lock st' = true
       /\ SerialTransport.opens st' = (SerialTransport.opens Samples.connected + 0 + 1)%nat
       /\ SerialTransport.writes st' = SerialTransport.writes Samples.connected.
Proof.
  assert (Hnone : forall j, (j < 0)%nat ->
            SerialTransport.open_result Samples.one_read_failure
              (SerialTransport.opens Samples.connected + j) = false)
    by (intros j Hj; exfalso; inversion Hj).
  destruct (read_line_failure_defers_reconnect SerialTransport.ascii_codec
              Samples.one_read_failure 0 2 "LED|1|OFF"
              Samples.connected Samples.connected
              (SerialTransport.emit (SerialTransport.IoReadline None)
                 (SerialTransport.next_read Samples.connected))
              {| SerialTransport.is_open := true |}
              eq_refl eq_refl eq_refl (le_n 2) Hnone eq_refl eq_refl)
    as ((Hcall & _) & _ & Hsend).
  split; [reflexivity|]. split; [reflexivity|]. split; [reflexivity|].
  split; [constructor|]. split; [reflexivity|]. split; [reflexivity|].
  split; [exact Hcall|exact Hsend].
Defined.
